(** * Cloud-Carbon dashboard: the request builders, the emissions client and
      the result aggregator of [dash_functions.py], embedded and verified.

    The Python functions are embedded shallowly:
    - dynamically typed arguments and JSON data are terms of [Py.value];
      a [dict] with string keys is a [gmap string Py.value];
    - a Python [float] is a binary64 number, here Rocq's primitive [float];
    - a function that can raise returns a [Py.result];
    - the functions that read the environment, the session state, the file
      system or the network thread a [world] and append to its [trace]. *)

From Stdlib Require Import ZArith Floats Ascii.
From stdpp Require Import gmap strings list.

Set Warnings "-register-all".
#[local] Open Scope Z_scope.

(** ** Python values, classes and exceptions *)

Module Py.

Inductive value : Type :=
  | VNone
  | VBool (b : bool)
  | VInt (z : Z)
  | VFloat (f : float)
  | VStr (s : string)
  | VList (l : list value)
  | VDict (d : gmap string value).

(** The built-in classes that [dash_functions.py] tests with [isinstance]. *)
Inductive class := TInt | TFloat | TStr.

(** [isinstance(v, c)].  [bool] is a subclass of [int], so [True] and
    [False] are instances of [int]. *)
Definition isinstance (v : value) (c : class) : bool :=
  match c, v with
  | TInt, (VInt _ | VBool _) => true
  | TFloat, VFloat _ => true
  | TStr, VStr _ => true
  | _, _ => false
  end.

(** [v == s] for a string literal [s]: only a [str] of the same characters
    compares equal to it. *)
Definition eq_str (v : value) (s : string) : bool :=
  match v with
  | VStr s' => bool_decide (s' = s)
  | _ => false
  end.

(** [v in (s1, ..., sn)] for a tuple of string literals. *)
Definition in_strs (v : value) (l : list string) : bool :=
  existsb (eq_str v) l.

(** [type(v).__name__], as the messages of [AttributeError] quote it. *)
Definition type_name (v : value) : string :=
  match v with
  | VNone => "NoneType"
  | VBool _ => "bool"
  | VInt _ => "int"
  | VFloat _ => "float"
  | VStr _ => "str"
  | VList _ => "list"
  | VDict _ => "dict"
  end.

(** Exception classes, with the bases Python and [requests] give them. *)
Inductive exn_class :=
  | Exception
  | AttributeError
  | TypeError
  | ArithmeticError
  | OverflowError
  | ValueError
  | OSError
  | FileNotFoundError
  | PermissionError
  | IsADirectoryError
  | UnicodeDecodeError
  | JSONDecodeError
  | RequestException
  | HTTPError
  | ConnectionError
  | ProxyError
  | SSLError
  | Timeout
  | ConnectTimeout
  | ReadTimeout
  | TooManyRedirects
  | RequestsJSONDecodeError.

#[global] Instance exn_class_eq_dec : EqDecision exn_class.
Proof. solve_decision. Defined.

Definition bases (c : exn_class) : list exn_class :=
  match c with
  | Exception => []
  | AttributeError | TypeError | ArithmeticError => [Exception]
  | OverflowError => [ArithmeticError]
  | ValueError | OSError => [Exception]
  | FileNotFoundError | PermissionError | IsADirectoryError => [OSError]
  | UnicodeDecodeError | JSONDecodeError => [ValueError]
  | RequestException => [OSError]
  | HTTPError | ConnectionError | Timeout | TooManyRedirects => [RequestException]
  | ProxyError | SSLError => [ConnectionError]
  | ConnectTimeout => [ConnectionError; Timeout]
  | ReadTimeout => [Timeout]
  | RequestsJSONDecodeError => [RequestException; JSONDecodeError]
  end.

Fixpoint ancestors (depth : nat) (c : exn_class) : list exn_class :=
  match depth with
  | O => [c]
  | S d => c :: flat_map (ancestors d) (bases c)
  end.

(** [issubclass(c, d)]: what [except d] tests on an exception of class [c].
    No chain of bases is longer than four. *)
Definition issubclass (c d : exn_class) : bool :=
  bool_decide (d ∈ ancestors 4 c).

(** The outcome of a call: a value, or a raised exception with its message. *)
Inductive result (A : Type) : Type :=
  | Ok (a : A)
  | Raise (c : exn_class) (msg : string).
#[global] Arguments Ok {A} a.
#[global] Arguments Raise {A} c msg.

Definition raises {A} (r : result A) (c : exn_class) : Prop :=
  match r with
  | Ok _ => False
  | Raise c' _ => c' = c
  end.

(** The binary64 nearest to an integer, ties to even; an infinity when the
    integer rounds to 2^1024 or beyond. *)
Definition nearest_float (z : Z) : SpecFloat.spec_float :=
  SpecFloat.binary_normalize 53 1024 z 0 false.

(** The conversion [float.__add__] makes of an [int] operand: the nearest
    binary64, and [OverflowError] for an integer beyond the range. *)
Definition float_of_int (z : Z) : result float :=
  match nearest_float z with
  | SpecFloat.S754_infinity _ =>
      Raise OverflowError "int too large to convert to float"
  | x => Ok (SF2Prim x)
  end.

(** [v.get(k, d)]: a [dict] has the method, no other value here has. *)
Definition get (v : value) (k : string) (d : value) : result value :=
  match v with
  | VDict m => Ok (default d (m !! k))
  | _ =>
      Raise AttributeError
        ("'" +:+ type_name v +:+ "' object has no attribute 'get'")
  end.

End Py.
Import Py.

(** ** Request bodies (lines 13-58) *)

Definition generate_vm_request_body
    (region instance duration duration_unit vcpu_utilization : value)
    : result value :=
  if negb (isinstance duration TInt) then
    Raise ValueError "Duration must be an integer."
  else if negb (isinstance region TStr) || negb (isinstance instance TStr) then
    Raise ValueError "Region and instance must be strings."
  else if negb (in_strs duration_unit ["ms"; "s"; "m"; "h"; "day"; "year"]) then
    Raise ValueError "Duration unit must be one of ms, s, m, h, day or year."
  else
    match vcpu_utilization with
    | VFloat u =>
        if negb ((0 <=? u)%float && (u <=? 1)%float) then
          Raise ValueError "vCPU utilization must be between 0 and 1."
        else
          Ok (VDict (list_to_map
                [("region", region);
                 ("instance", instance);
                 ("duration", duration);
                 ("duration_unit", duration_unit);
                 ("average_vcpu_utilization", vcpu_utilization)]))
    | _ => Raise ValueError "vCPU utilization must be a float."
    end.

Definition generate_storage_request_body
    (region storage_type duration data_stored data_unit duration_unit : value)
    : result value :=
  if negb (isinstance duration TInt) then
    Raise ValueError "Duration must be an integer."
  else if negb (isinstance region TStr) || negb (isinstance storage_type TStr) then
    Raise ValueError "Region and storage type must be strings."
  else if negb (in_strs duration_unit ["ms"; "s"; "m"; "h"; "day"; "year"]) then
    Raise ValueError "Duration unit must be one of ms, s, m, h, day or year."
  else if negb (isinstance data_stored TFloat) then
    Raise ValueError "Data stored must be a float."
  else if negb (in_strs data_unit ["MB"; "GB"; "TB"]) then
    Raise ValueError "Data unit must be one of MB, GB, TB."
  else
    let storage_type :=
      if eq_str storage_type "Solid-state Drive" then VStr "ssd"
      else if eq_str storage_type "Hard Disk Drive" then VStr "hdd"
      else storage_type in
    Ok (VDict (list_to_map
          [("region", region);
           ("storage_type", storage_type);
           ("data", data_stored);
           ("data_unit", data_unit);
           ("duration", duration);
           ("duration_unit", duration_unit)])).

(** The defaults of the two signatures: [duration_unit="h"] and
    [vcpu_utilization=0.5]. *)
Definition default_duration_unit : value := VStr "h".
Definition default_vcpu_utilization : value := VFloat 0.5.

(** ** Provider names (lines 78-90) *)

Definition mapping : gmap string string :=
  list_to_map
    [("Amazon Web Services", "aws");
     ("Microsoft Azure", "azure");
     ("Google Cloud Platform", "gcp");
     ("aws", "Amazon Web Services");
     ("azure", "Microsoft Azure");
     ("gcp", "Google Cloud Platform")].

Definition convert_provider_name (provider : string) : result string :=
  match mapping !! provider with
  | Some name => Ok name
  | None => Raise ValueError ("Invalid provider name: " +:+ provider)
  end.

(** ** The world the effectful functions run in *)

(** One [requests.post(url, headers=headers, json=body, timeout=15)]. *)
Record http_call := HttpCall {
  call_url : string;
  call_headers : gmap string string;
  call_json : value;
  call_timeout : Z;
}.

(** What [requests.post] itself can raise.  [requests] raises [HTTPError]
    only from [raise_for_status], never from the transport. *)
Inductive transport_failure :=
  | ConnectionFailed
  | ProxyFailed
  | SSLFailed
  | ConnectTimedOut
  | ReadTimedOut
  | RedirectLoop
  | OtherFailure.

Definition failure_class (f : transport_failure) : exn_class :=
  match f with
  | ConnectionFailed => ConnectionError
  | ProxyFailed => ProxyError
  | SSLFailed => SSLError
  | ConnectTimedOut => ConnectTimeout
  | ReadTimedOut => ReadTimeout
  | RedirectLoop => TooManyRedirects
  | OtherFailure => Exception
  end.

(** [response.json()]: the decoded JSON document, whatever it is (an
    object, an array, a number, a string, [true], [false] or [null]), or a
    decoding failure. *)
Inductive json_outcome :=
  | JsonOk (v : value)
  | JsonFails.

(** How one call ends: the transport raises, or a response comes back with
    a status code and a body. *)
Inductive post_outcome :=
  | PostRaises (f : transport_failure)
  | PostReturns (status : Z) (payload : json_outcome).

(** The messages [st.error] shows. *)
Inductive ui_message :=
  | MsgMetadataNotFound (filepath : string)
  | MsgMetadataInvalidJson (filepath : string)
  | MsgApiKeyNotSet
  | MsgForbidden
  | MsgHttpError (status : Z)
  | MsgNetworkFailure (f : transport_failure)
  | MsgVerifyConnection
  | MsgUnexpected (c : exn_class).

Inductive event :=
  | EnvGet (name : string)
  | OpenFile (filepath : string)
  | HttpPost (c : http_call) (o : post_outcome)
  | StError (m : ui_message)
  | StSpinner (text : string).

(** [environ] is [os.environ], [session_state] is [st.session_state],
    [files] gives what opening a path and [json.load]-ing it yields,
    [network] gives how the remote side answers a call after the events so
    far, and [trace] lists the effects performed, oldest first. *)
Record world := World {
  environ : gmap string string;
  session_state : gmap string (list value);
  files : string -> result value;
  network : list event -> http_call -> post_outcome;
  trace : list event;
}.

Definition add_events (w : world) (evs : list event) : world :=
  {| environ := environ w;
     session_state := session_state w;
     files := files w;
     network := network w;
     trace := trace w ++ evs |}.

Definition log (e : event) (w : world) : world := add_events w [e].

(** Computations that read and extend the world and may raise. *)
Definition M (A : Type) : Type := world -> result A * world.

Definition ret {A} (a : A) : M A := fun w => (Ok a, w).

Definition bind {A B} (m : M A) (k : A -> M B) : M B :=
  fun w =>
    match m w with
    | (Ok a, w') => k a w'
    | (Raise c msg, w') => (Raise c msg, w')
    end.

Definition raise {A} (c : exn_class) (msg : string) : M A :=
  fun w => (Raise c msg, w).

Definition emit (e : event) : M unit := fun w => (Ok tt, log e w).

(** A call that leaves the world as it is. *)
Definition pure {A} (r : result A) : M A := fun w => (r, w).

Notation "x <- m ;; k" := (bind m (fun x => k))
  (at level 100, m at next level, right associativity).
Notation "m ;;; k" := (bind m (fun _ => k))
  (at level 100, right associativity).

(** ** Metadata (lines 60-76) *)

Definition provider_entry (region instance : string) : value :=
  VDict (list_to_map
    [("regions", VList [VStr region]);
     ("virtual_machine_instances", VList [VStr instance])]).

Definition default_metadata : value :=
  VDict {[ "cloud_providers" :=
    VDict (list_to_map
      [("aws", provider_entry "us-east-1" "t2.micro");
       ("azure", provider_entry "eastus" "Standard_B1s");
       ("gcp", provider_entry "us-central1" "e2-micro")]) ]}.

Definition read_metadata (filepath : string) : M value :=
  emit (OpenFile filepath) ;;;
  fun w =>
    match files w filepath with
    | Ok metadata => ret metadata w
    | Raise c msg =>
        if issubclass c FileNotFoundError then
          (emit (StError (MsgMetadataNotFound filepath)) ;;;
           ret default_metadata) w
        else if issubclass c JSONDecodeError then
          (emit (StError (MsgMetadataInvalidJson filepath)) ;;;
           ret default_metadata) w
        else raise c msg w
    end.

(** ** The emissions client (lines 99-130) *)

Definition base_url : string := "https://api.climatiq.io/data/v1/estimate ".

Definition endpoint_url (provider endpoint : string) : string :=
  base_url +:+ "/" +:+ provider +:+ "/" +:+ endpoint.

(** [{"results": results}]. *)
Definition results_response (results : list value)
    : gmap string (list value) :=
  {[ "results" := results ]}.

(** [response.raise_for_status()] raises for a 4xx or a 5xx status. *)
Definition raise_for_status (status : Z) : bool :=
  (400 <=? status) && (status <? 600).

(** The [for body in body_array] loop, with [results] as accumulated so
    far; it gives the returned dictionary. *)
Fixpoint send_loop (url : string) (headers : gmap string string)
    (body_array : list value) (results : list value)
    (w : world) : gmap string (list value) * world :=
  match body_array with
  | [] => (results_response results, w)
  | body :: rest =>
      let call := HttpCall url headers body 15 in
      let answer := network w (trace w) call in
      let w := log (HttpPost call answer) w in
      match answer with
      | PostRaises f =>
          if issubclass (failure_class f) ConnectionError then
            (results_response [],
             log (StError MsgVerifyConnection)
               (log (StError (MsgNetworkFailure f)) w))
          else
            (results_response [],
             log (StError (MsgUnexpected (failure_class f))) w)
      | PostReturns status payload =>
          if raise_for_status status then
            let m := if status =? 403 then MsgForbidden
                     else MsgHttpError status in
            send_loop url headers rest results (log (StError m) w)
          else
            match payload with
            | JsonOk v => send_loop url headers rest (results ++ [v]) w
            | JsonFails =>
                (results_response [],
                 log (StError (MsgUnexpected RequestsJSONDecodeError)) w)
            end
      end
  end.

Definition send_batch_request (provider : string) (body_array : list value)
    (endpoint : string) : M (gmap string (list value)) :=
  if negb (bool_decide (provider ∈ ["aws"; "azure"; "gcp"])) then
    raise ValueError ("Invalid provider: " +:+ provider)
  else
    fun w =>
      let api_key := environ w !! "API_KEY" in
      let w := log (EnvGet "API_KEY") w in
      match api_key with
      | None | Some "" =>
          (emit (StError MsgApiKeyNotSet) ;;; ret (results_response [])) w
      | Some api_key =>
          let url := endpoint_url provider endpoint in
          let headers := {[ "Authorization" := "Bearer " +:+ api_key ]} in
          let '(response, w) := send_loop url headers body_array [] w in
          (Ok response, w)
      end.

(** ** The result aggregator (lines 132-169) *)

(** [overall_co2e += v]: [float.__add__] takes a [float] as it is and
    converts an [int] ([bool] included); it is not defined for the other
    values. *)
Definition float_add (overall : float) (v : value) : result float :=
  match v with
  | VFloat f => Ok (overall + f)%float
  | VInt z =>
      match float_of_int z with
      | Ok f => Ok (overall + f)%float
      | Raise c msg => Raise c msg
      end
  | VBool b =>
      match float_of_int (Z.b2z b) with
      | Ok f => Ok (overall + f)%float
      | Raise c msg => Raise c msg
      end
  | _ =>
      Raise TypeError
        ("unsupported operand type(s) for +=: 'float' and '"
           +:+ type_name v +:+ "'")
  end.

(** The [for item in result_set] loop, with [overall_co2e] as summed so
    far. *)
Fixpoint format_loop (co2_key : string) (result_set : list value)
    (overall_co2e : float) : result float :=
  match result_set with
  | [] => Ok overall_co2e
  | item :: rest =>
      match get item co2_key (VInt 0) with
      | Raise c msg => Raise c msg
      | Ok co2e_value =>
          if isinstance co2e_value TInt || isinstance co2e_value TFloat then
            match float_add overall_co2e co2e_value with
            | Raise c msg => Raise c msg
            | Ok overall_co2e => format_loop co2_key rest overall_co2e
            end
          else format_loop co2_key rest overall_co2e
      end
  end.

(** [response] is a dictionary whose [results], when it has them, are a
    list, as [send_batch_request] returns it. *)
Definition format_batch_response (response : gmap string (list value))
    (calculation_type : string) : result float :=
  let co2_key := if bool_decide (calculation_type = "vm") then "total_co2e"
                 else "co2e" in
  let result_set := default [] (response !! "results") in
  format_loop co2_key result_set 0%float.

Definition calculate (calculation_type : string) : M (gmap string value) :=
  fun w =>
    let endpoint := if bool_decide (calculation_type = "vm") then "instance"
                    else "storage" in
    let aws_batch :=
      default [] (session_state w !! ("aws_" +:+ calculation_type +:+ "_batch")) in
    let azure_batch :=
      default [] (session_state w !! ("azure_" +:+ calculation_type +:+ "_batch")) in
    let gcp_batch :=
      default [] (session_state w !! ("gcp_" +:+ calculation_type +:+ "_batch")) in
    let result_breakdown : gmap string value :=
      <[ "gcp_" +:+ calculation_type := VInt 0 ]>
        (<[ "azure_" +:+ calculation_type := VInt 0 ]>
           (<[ "aws_" +:+ calculation_type := VInt 0 ]> ∅)) in
    (result_breakdown <-
       (if bool_decide (aws_batch ≠ []) then
          emit (StSpinner ("Calculating AWS " +:+ calculation_type +:+ " emissions...")) ;;;
          aws_response <- send_batch_request "aws" aws_batch endpoint ;;
          aws_total <- pure (format_batch_response aws_response calculation_type) ;;
          ret (<[ "aws_" +:+ calculation_type := VFloat aws_total ]> result_breakdown)
        else ret result_breakdown) ;;
     result_breakdown <-
       (if bool_decide (azure_batch ≠ []) then
          emit (StSpinner ("Calculating Azure " +:+ calculation_type +:+ " emissions...")) ;;;
          azure_response <- send_batch_request "azure" azure_batch endpoint ;;
          azure_total <- pure (format_batch_response azure_response calculation_type) ;;
          ret (<[ "azure_" +:+ calculation_type := VFloat azure_total ]> result_breakdown)
        else ret result_breakdown) ;;
     result_breakdown <-
       (if bool_decide (gcp_batch ≠ []) then
          emit (StSpinner ("Calculating GCP " +:+ calculation_type +:+ " emissions...")) ;;;
          gcp_response <- send_batch_request "gcp" gcp_batch endpoint ;;
          gcp_total <- pure (format_batch_response gcp_response calculation_type) ;;
          ret (<[ "gcp_" +:+ calculation_type := VFloat gcp_total ]> result_breakdown)
        else ret result_breakdown) ;;
     ret result_breakdown) w.

(** ** Vocabulary of the specification *)

Definition duration_units : list string := ["ms"; "s"; "m"; "h"; "day"; "year"].
Definition data_units : list string := ["MB"; "GB"; "TB"].

(** A unit argument is a string of the allowed set. *)
Definition unit_in (v : value) (units : list string) : Prop :=
  ∃ s, v = VStr s ∧ s ∈ units.

(** A utilization argument is a float between 0 and 1. *)
Definition utilization_in_range (v : value) : Prop :=
  ∃ u, v = VFloat u ∧ (0 <=? u)%float = true ∧ (u <=? 1)%float = true.

(** The inputs the VM builder is specified to accept.  Integers, strings
    and floats are Python's: an instance of [int] ([bool] included), of
    [str], of [float]. *)
Definition vm_inputs_valid
    (region instance duration duration_unit vcpu_utilization : value) : Prop :=
  isinstance duration TInt ∧
  isinstance region TStr ∧ isinstance instance TStr ∧
  unit_in duration_unit duration_units ∧
  utilization_in_range vcpu_utilization.

Definition storage_inputs_valid
    (region storage_type duration data_stored data_unit duration_unit : value)
    : Prop :=
  isinstance duration TInt ∧
  isinstance region TStr ∧ isinstance storage_type TStr ∧
  unit_in duration_unit duration_units ∧
  isinstance data_stored TFloat ∧
  unit_in data_unit data_units.

(** The normalization of the display labels of the storage types. *)
Definition normalize_storage_type (v : value) : value :=
  match v with
  | VStr s =>
      if decide (s = "Solid-state Drive") then VStr "ssd"
      else if decide (s = "Hard Disk Drive") then VStr "hdd"
      else v
  | _ => v
  end.

(** The field [k] of a request body. *)
Definition field (body : value) (k : string) : option value :=
  match body with
  | VDict d => d !! k
  | _ => None
  end.

Definition positive_int (v : value) : Prop := ∃ z, v = VInt z ∧ 0 < z.
Definition positive_float (v : value) : Prop :=
  ∃ f, v = VFloat f ∧ (0 <? f)%float = true.

(** The six names [convert_provider_name] knows. *)
Definition provider_ids : list string := ["aws"; "azure"; "gcp"].
Definition provider_display_names : list string :=
  ["Amazon Web Services"; "Microsoft Azure"; "Google Cloud Platform"].
Definition provider_names : list string :=
  provider_ids ++ provider_display_names.

(** The CO2e field of a calculation kind. *)
Definition co2e_field (calculation_type : string) : string :=
  if decide (calculation_type = "vm") then "total_co2e" else "co2e".

(** The float a Python number stands for in a float sum: a [float]
    itself, the nearest binary64 of an [int] (an infinity beyond the range
    of the floats, where the sum raises: [summable] leaves these out), 1.0
    and 0.0 for [True] and [False]; nothing for a value that is not a
    number. *)
Definition number (v : value) : option float :=
  match v with
  | VFloat f => Some f
  | VInt z => Some (SF2Prim (nearest_float z))
  | VBool b => Some (if b then 1%float else 0%float)
  | _ => None
  end.

(** What one result item adds to the total: its CO2e field when that is a
    number, the default 0 when the item has no such field, and nothing
    when the field holds anything else (or the item is no JSON object). *)
Definition extract_co2e (calculation_type : string) (item : value)
    : option float :=
  match item with
  | VDict d =>
      match d !! co2e_field calculation_type with
      | None => Some 0%float
      | Some v => number v
      end
  | _ => None
  end.

(** An integer within the range of the floats: its nearest binary64 is
    finite. *)
Definition in_float_range (z : Z) : bool :=
  match nearest_float z with
  | SpecFloat.S754_infinity _ => false
  | _ => true
  end.

(** A result item that can be summed: a JSON object whose CO2e field, when
    it is an integer, is within the range of the floats. *)
Definition summable (calculation_type : string) (item : value) : bool :=
  match item with
  | VDict d =>
      match d !! co2e_field calculation_type with
      | Some (VInt z) => in_float_range z
      | _ => true
      end
  | _ => false
  end.

(** The sum of a sequence of floats, taken left to right from 0.0. *)
Definition sum_floats (l : list float) : float :=
  fold_left PrimFloat.add l 0%float.

(** The calls among a sequence of events, each with its outcome. *)
Definition posts (evs : list event) : list (http_call * post_outcome) :=
  omap (fun e => match e with HttpPost c o => Some (c, o) | _ => None end) evs.

Definition outcomes (evs : list event) : list post_outcome := (posts evs).*2.

(** The calls a batch is sent as, one per request body, in order. *)
Definition calls_of (url : string) (headers : gmap string string)
    (body_array : list value) : list http_call :=
  (fun body => HttpCall url headers body 15) <$> body_array.

(** Every call recorded in [evs], performed from [w] on, carries the
    outcome the network gives it at that point. *)
Fixpoint answered_by (w : world) (evs : list event) : Prop :=
  match evs with
  | [] => True
  | e :: rest =>
      match e with
      | HttpPost c o => o = network w (trace w) c
      | _ => True
      end ∧ answered_by (log e w) rest
  end.


Definition estimate (o : post_outcome) : option value :=
  match o with
  | PostReturns status (JsonOk v) =>
      if (400 <=? status) && (status <? 600) then None else Some v
  | _ => None
  end.

Definition aborts (o : post_outcome) : bool :=
  match o with
  | PostRaises _ => true
  | PostReturns status JsonFails => negb ((400 <=? status) && (status <? 600))
  | PostReturns _ (JsonOk _) => false
  end.

(** The result sequence the policy prescribes for the outcomes of a batch:
    empty as soon as one call aborts, and otherwise the estimates in order,
    the HTTP error responses left out. *)
Definition batch_results (os : list post_outcome) : list value :=
  if existsb aborts os then [] else omap estimate os.

(** A remote side all of whose estimates can be summed, whatever the call
    and whatever happened before. *)
Definition summable_outcome (calculation_type : string) (o : post_outcome)
    : Prop :=
  ∀ item, estimate o = Some item → summable calculation_type item = true.

Definition summable_answers (w : world) (calculation_type : string) : Prop :=
  ∀ history c, summable_outcome calculation_type (network w history c).

(** The session key of a provider's batch, the key of its bucket in the
    breakdown, and the endpoint of a calculation kind. *)
Definition batch_key (provider calculation_type : string) : string :=
  provider +:+ "_" +:+ calculation_type +:+ "_batch".

Definition bucket_key (provider calculation_type : string) : string :=
  provider +:+ "_" +:+ calculation_type.

Definition endpoint_of (calculation_type : string) : string :=
  if decide (calculation_type = "vm") then "instance" else "storage".

Definition batch_of (w : world) (provider calculation_type : string)
    : list value :=
  default [] (session_state w !! batch_key provider calculation_type).

(** The outcomes, among [evs], of the calls to one provider's endpoint. *)
Definition own_outcomes (provider calculation_type : string)
    (evs : list event) : list post_outcome :=
  (filter
     (fun co => call_url co.1
                = endpoint_url provider (endpoint_of calculation_type))
     (posts evs)).*2.

(** The value of a provider's bucket, from its batch and the outcomes of
    its own calls: the integer 0 without a batch, and otherwise the sum of
    what the results of the batch add. *)
Definition bucket_value (batch : list value) (own : list post_outcome)
    (calculation_type : string) : value :=
  match batch with
  | [] => VInt 0
  | _ :: _ =>
      VFloat (sum_floats (omap (extract_co2e calculation_type)
                            (batch_results own)))
  end.


(** The breakdown [calculate] starts from. *)
Definition zero_breakdown (calculation_type : string) : gmap string value :=
  <[ bucket_key "gcp" calculation_type := VInt 0 ]>
    (<[ bucket_key "azure" calculation_type := VInt 0 ]>
       (<[ bucket_key "aws" calculation_type := VInt 0 ]> ∅)).

(** What a block of [calculate] does to the breakdown, given the outcomes
    of its calls: nothing without a batch, and otherwise it sets the bucket
    to the total of the results, or raises what summing them raises. *)
Definition bucket_update (batch : list value) (provider calculation_type : string)
    (own : list post_outcome) (result_breakdown : gmap string value)
    : result (gmap string value) :=
  match batch with
  | [] => Ok result_breakdown
  | _ :: _ =>
      match format_batch_response (results_response (batch_results own))
              calculation_type with
      | Ok total =>
          Ok (<[ bucket_key provider calculation_type := VFloat total ]>
                result_breakdown)
      | Raise c msg => Raise c msg
      end
  end.

(** The calls, among [evs], to one provider's endpoint. *)
Definition own_calls (provider calculation_type : string)
    (evs : list event) : list http_call :=
  (filter
     (fun co => call_url co.1
                = endpoint_url provider (endpoint_of calculation_type))
     (posts evs)).*1.

(** No credential is configured. *)
Definition no_api_key (w : world) : Prop :=
  environ w !! "API_KEY" = None ∨ environ w !! "API_KEY" = Some "".

(** The calls a block makes for its batch when a key is configured: those
    of the request bodies, in order, all of them unless one aborts, and an
    aborting call is the last. *)
Definition calls_batch (w : world) (provider calculation_type : string)
    (batch : list value) (calls : list http_call) (own : list post_outcome)
    : Prop :=
  ∀ api_key, environ w !! "API_KEY" = Some api_key → api_key ≠ "" →
    calls `prefix_of`
      calls_of (endpoint_url provider (endpoint_of calculation_type))
        {[ "Authorization" := "Bearer " +:+ api_key ]} batch ∧
    (existsb aborts own = false → length calls = length batch) ∧
    (∀ os o os', own = os ++ o :: os' → aborts o = true → os' = []).

(** The breakdown with the bucket of a provider set to its value. *)
Definition bucket_set (batch : list value) (provider calculation_type : string)
    (own : list post_outcome) (result_breakdown : gmap string value)
    : gmap string value :=
  match batch with
  | [] => result_breakdown
  | _ :: _ =>
      <[ bucket_key provider calculation_type :=
           bucket_value batch own calculation_type ]> result_breakdown
  end.

(** The next block, when the blocks before it returned. *)
Definition then_update (r : result (gmap string value)) (batch : list value)
    (provider calculation_type : string) (own : list post_outcome)
    : result (gmap string value) :=
  match r with
  | Ok result_breakdown =>
      bucket_update batch provider calculation_type own result_breakdown
  | Raise c msg => Raise c msg
  end.

(** Every call among [evs] goes to the endpoint of the provider. *)
Definition sent_to (provider calculation_type : string) (evs : list event)
    : Prop :=
  Forall (fun co => call_url co.1
                    = endpoint_url provider (endpoint_of calculation_type))
    (posts evs).

(** One of the three blocks of [calculate], for a provider id and the label
    its spinner shows. *)
Definition provider_block (provider label calculation_type endpoint : string)
    (batch : list value) (result_breakdown : gmap string value)
    : M (gmap string value) :=
  if bool_decide (batch ≠ []) then
    emit (StSpinner ("Calculating " +:+ label +:+ " " +:+ calculation_type
                       +:+ " emissions...")) ;;;
    response <- send_batch_request provider batch endpoint ;;
    total <- pure (format_batch_response response calculation_type) ;;
    ret (<[ bucket_key provider calculation_type := VFloat total ]>
           result_breakdown)
  else ret result_breakdown.

(** The catalog entries: a provider of a catalog with exactly one region
    and one instance type. *)
Definition single_entry (catalog : value) (provider : string) : Prop :=
  ∃ ps region instance,
    field catalog "cloud_providers" = Some (VDict ps) ∧
    ps !! provider
    = Some (VDict (list_to_map
        [("regions", VList [VStr region]);
         ("virtual_machine_instances", VList [VStr instance])])).

Definition catalog_providers (catalog : value) : gset string :=
  match field catalog "cloud_providers" with
  | Some (VDict ps) => dom ps
  | _ => ∅
  end.

(** ** Example worlds *)

Definition no_files : string -> result value :=
  fun filepath => Raise FileNotFoundError filepath.

Definition vm_body : value :=
  VDict (list_to_map
    [("region", VStr "us-east-1");
     ("instance", VStr "t2.micro");
     ("duration", VInt 10);
     ("duration_unit", VStr "h");
     ("average_vcpu_utilization", VFloat 0.5)]).

(** A network that answers the calls to AWS with 403 and the others with an
    estimate of 1.5. *)
Definition aws_forbidden (_ : list event) (c : http_call) : post_outcome :=
  if decide (call_url c = endpoint_url "aws" "instance") then
    PostReturns 403 JsonFails
  else PostReturns 200 (JsonOk (VDict {[ "total_co2e" := VFloat 1.5 ]})).

(** A session with one VM request for AWS and one for Azure, and a key. *)
Definition forbidden_world : world :=
  {| environ := {[ "API_KEY" := "secret" ]};
     session_state :=
       list_to_map [("aws_vm_batch", [vm_body]); ("azure_vm_batch", [vm_body])];
     files := no_files;
     network := aws_forbidden;
     trace := [] |}.

(** The same session without a key. *)
Definition keyless_world : world :=
  {| environ := ∅;
     session_state := session_state forbidden_world;
     files := no_files;
     network := aws_forbidden;
     trace := [] |}.

(** A network that answers by the number of calls made before: 403, then
    an estimate of 1.5, then 500, then read timeouts. *)
Definition flaky (history : list event) (c : http_call) : post_outcome :=
  match length (posts history) with
  | 0%nat => PostReturns 403 JsonFails
  | 1%nat => PostReturns 200 (JsonOk (VDict {[ "total_co2e" := VFloat 1.5 ]}))
  | 2%nat => PostReturns 500 JsonFails
  | _ => PostRaises ReadTimedOut
  end.

Definition flaky_world : world :=
  {| environ := {[ "API_KEY" := "secret" ]};
     session_state := ∅;
     files := no_files;
     network := flaky;
     trace := [] |}.

(** A network whose answer to AWS is a JSON array where an object is
    expected, and a world with it. *)
Definition aws_listing (_ : list event) (c : http_call) : post_outcome :=
  if decide (call_url c = endpoint_url "aws" "instance") then
    PostReturns 200 (JsonOk (VList []))
  else PostReturns 200 (JsonOk (VDict {[ "total_co2e" := VFloat 1.5 ]})).

Definition listing_world : world :=
  {| environ := {[ "API_KEY" := "secret" ]};
     session_state := session_state forbidden_world;
     files := no_files;
     network := aws_listing;
     trace := [] |}.



(** A world whose metadata file cannot be read. *)
Definition unreadable_world : world :=
  {| environ := ∅;
     session_state := ∅;
     files := fun filepath => Raise PermissionError filepath;
     network := aws_forbidden;
     trace := [] |}.

(** ** The session's batches ([dash_functions.py], lines 92-97, and the
       blocks of [dashboard.py] that create and fill them) *)

(** What the functions below show besides errors. *)
Inductive widget :=
  | StSuccess (text : string).

(** The page of a run: the world and what has been shown on it. *)
Record page := Page {
  page_world : world;
  page_shown : list widget;
}.

(** [st.session_state[key] = batch]. *)
Definition set_session_state (key : string) (batch : list value) (w : world)
    : world :=
  {| environ := environ w;
     session_state := <[ key := batch ]> (session_state w);
     files := files w;
     network := network w;
     trace := trace w |}.

Definition batch_keys : list string :=
  ["aws_vm_batch"; "azure_vm_batch"; "gcp_vm_batch";
   "aws_store_batch"; "azure_store_batch"; "gcp_store_batch"].

Definition reset_batches (p : page) : page :=
  let w :=
    fold_left (fun w key => set_session_state key [] w) batch_keys
      (page_world p) in
  Page w (page_shown p ++ [StSuccess "All calculation entries have been reset"]).

(** [dashboard.py], lines 28-31: a key that is not in the session yet gets
    an empty batch. *)
Definition init_session_state (w : world) : world :=
  fold_left
    (fun w key =>
       match session_state w !! key with
       | Some _ => w
       | None => set_session_state key [] w
       end)
    batch_keys w.

(** How a block of the script ends: it runs through, an exception of the
    classes above is raised in it, or the session has no such key. *)
Inductive script_result (A : Type) : Type :=
  | Returned (a : A)
  | Raised (c : exn_class) (msg : string)
  | KeyError (key : string).
#[global] Arguments Returned {A} a.
#[global] Arguments Raised {A} c msg.
#[global] Arguments KeyError {A} key.

(** The text of [f"{v}"] for a [str]; the builders let no other value
    through to the two messages below. *)
Definition str_text (v : value) : string :=
  match v with
  | VStr s => s
  | _ => ""
  end.

(** [dashboard.py], lines 63-66: the VM form was submitted. *)
Definition submit_vm_form (provider : string)
    (region instance_type duration unit vcpu_utilization : value) (p : page)
    : script_result Datatypes.unit * page :=
  match generate_vm_request_body region instance_type duration unit
          vcpu_utilization with
  | Raise c msg => (Raised c msg, p)
  | Ok vm_body =>
      let key := provider +:+ "_vm_batch" in
      match session_state (page_world p) !! key with
      | None => (KeyError key, p)
      | Some batch =>
          (Returned tt,
           Page (set_session_state key (batch ++ [vm_body]) (page_world p))
             (page_shown p
              ++ [StSuccess ("Added VM instance " +:+ str_text instance_type
                             +:+ " to calculation")]))
      end
  end.

(** [dashboard.py], lines 83-86: the storage form was submitted. *)
Definition submit_storage_form (provider : string)
    (region storage_type duration data_stored data_unit unit : value)
    (p : page) : script_result Datatypes.unit * page :=
  match generate_storage_request_body region storage_type duration
          data_stored data_unit unit with
  | Raise c msg => (Raised c msg, p)
  | Ok storage_body =>
      let key := provider +:+ "_store_batch" in
      match session_state (page_world p) !! key with
      | None => (KeyError key, p)
      | Some batch =>
          (Returned tt,
           Page (set_session_state key (batch ++ [storage_body])
                   (page_world p))
             (page_shown p
              ++ [StSuccess ("Added " +:+ str_text storage_type
                             +:+ " storage to calculation")]))
      end
  end.

(** ** The pie chart ([dash_functions.py], lines 171-192) *)

(** The values of a breakdown: an [int] or a [float]. *)
Inductive num :=
  | NInt (z : Z)
  | NFloat (f : float).

(** [v > 0]. *)
Definition positive (v : num) : bool :=
  match v with
  | NInt z => 0 <? z
  | NFloat f => (0 <? f)%float
  end.

(** [s.split(sep)] for a separator of one character. *)
Fixpoint split_on (sep : ascii) (s : string) : list string :=
  match s with
  | EmptyString => [EmptyString]
  | String c s' =>
      if decide (c = sep) then EmptyString :: split_on sep s'
      else
        match split_on sep s' with
        | part :: parts => String c part :: parts
        | [] => [String c EmptyString]
        end
  end.

(** What an Altair chart is built from: the records its data frame is
    made of (the list given to [pd.DataFrame], each a category and a value
    as the loop computed them; pandas then stores each column under one
    type of its own choice), the colour scheme, the tooltip fields and the
    title. *)
Record chart := Chart {
  chart_records : list (string * num);
  chart_scheme : option string;
  chart_tooltip : list string;
  chart_title : option string;
}.

Definition no_data_chart : chart :=
  Chart [("No Data", NInt 1)] None [] None.

Section PieChart.

(** [str.capitalize].  Python's works on the characters of Unicode; the
    chart is embedded for whatever function on strings it is. *)
Variable capitalize : string -> string.

(** The loop over [filtered_data.items()], with [processed_data] as
    collected so far. *)
Fixpoint process_data (items : list (string * num))
    (processed_data : list (string * num))
    : result (list (string * num)) :=
  match items with
  | [] => Ok processed_data
  | (category, value) :: rest =>
      match split_on "_" category with
      | [provider; service] =>
          match convert_provider_name provider with
          | Raise c msg => Raise c msg
          | Ok name =>
              let display_name := name +:+ " " +:+ capitalize service in
              process_data rest (processed_data ++ [(display_name, value)])
          end
      | [_] =>
          Raise ValueError "not enough values to unpack (expected 2, got 1)"
      | _ => Raise ValueError "too many values to unpack (expected 2)"
      end
  end.

(** [data] is the dictionary as its items, in insertion order. *)
Definition create_piechart (data : list (string * num)) : result chart :=
  let filtered_data := filter (fun kv => positive kv.2 = true) data in
  match filtered_data with
  | [] => Ok no_data_chart
  | _ :: _ =>
      match process_data filtered_data [] with
      | Raise c msg => Raise c msg
      | Ok processed_data =>
          Ok (Chart processed_data (Some "blues") ["Category"; "Value"]
                (Some "CO2e Emissions by Service (kg)"))
      end
  end.

End PieChart.

(** [s.capitalize()] for a string of ASCII characters: the first character
    in upper case and the others in lower case. *)
Definition upper (c : ascii) : ascii :=
  let n := N_of_ascii c in
  if ((97 <=? n) && (n <=? 122))%N then ascii_of_N (n - 32) else c.

Definition lower (c : ascii) : ascii :=
  let n := N_of_ascii c in
  if ((65 <=? n) && (n <=? 90))%N then ascii_of_N (n + 32) else c.

Fixpoint lowercase (s : string) : string :=
  match s with
  | EmptyString => EmptyString
  | String c s' => String (lower c) (lowercase s')
  end.

Definition capitalize_ascii (s : string) : string :=
  match s with
  | EmptyString => EmptyString
  | String c s' => String (upper c) (lowercase s')
  end.

(** ** Vocabulary for the session and the chart *)

(** The character [c] occurs in [s]. *)
Fixpoint occurs (c : ascii) (s : string) : bool :=
  match s with
  | EmptyString => false
  | String c' s' => bool_decide (c' = c) || occurs c s'
  end.

(** A chart category the loop can label: a provider name, an underscore,
    and a service without underscore. *)
Definition labelled (category : string) : Prop :=
  ∃ provider service,
    category = provider +:+ "_" +:+ service ∧
    provider ∈ provider_names ∧ occurs "_" service = false.

(** The record the loop makes of an item: the value is kept, and the label
    is the converted provider name, a space, and the capitalized service. *)
Definition labels (capitalize : string → string) (kv row : string * num)
    : Prop :=
  row.2 = kv.2 ∧
  ∃ provider service name,
    kv.1 = provider +:+ "_" +:+ service ∧
    occurs "_" provider = false ∧ occurs "_" service = false ∧
    convert_provider_name provider = Ok name ∧
    row.1 = name +:+ " " +:+ capitalize service.

(** A network that answers every call with an estimate. *)
Definition always_estimates (w : world) : Prop :=
  ∀ history c, ∃ status d,
    network w history c = PostReturns status (JsonOk d) ∧
    raise_for_status status = false.

(** A network whose answer to a call does not depend on what happened
    before. *)
Definition stateless (w : world) : Prop :=
  ∀ history history' c, network w history c = network w history' c.

(** A network with one estimate for every call, and a world with it. *)
Definition steady (_ : list event) (_ : http_call) : post_outcome :=
  PostReturns 200 (JsonOk (VDict {[ "total_co2e" := VFloat 0.5 ]})).

Definition steady_world : world :=
  {| environ := {[ "API_KEY" := "secret" ]};
     session_state := list_to_map [("aws_vm_batch", [vm_body; vm_body])];
     files := no_files;
     network := steady;
     trace := [] |}.

(** * Properties *)

(** ** Python's tests *)

Lemma in_strs_spec (v : value) (l : list string) :
  in_strs v l = true ↔ ∃ s, v = VStr s ∧ s ∈ l.
Proof.
  unfold in_strs. rewrite existsb_exists. split.
  - intros (s & Hin & Heq). destruct v; try discriminate.
    simpl in Heq. apply bool_decide_eq_true in Heq. subst.
    eexists. split; [reflexivity|]. by apply list_elem_of_In.
  - intros (s & -> & Hin). exists s. split; [by apply list_elem_of_In|].
    simpl. by apply bool_decide_eq_true.
Qed.

Lemma in_strs_unit (v : value) (units : list string) :
  in_strs v units = true ↔ unit_in v units.
Proof. apply in_strs_spec. Qed.

Lemma eq_str_normalize (s : string) :
  (if eq_str (VStr s) "Solid-state Drive" then VStr "ssd"
   else if eq_str (VStr s) "Hard Disk Drive" then VStr "hdd"
   else VStr s) = normalize_storage_type (VStr s).
Proof.
  unfold normalize_storage_type, eq_str.
  repeat case_bool_decide; repeat case_decide; congruence.
Qed.

(** ** Request bodies *)

Lemma generate_vm_request_body_valid
    (region instance duration duration_unit vcpu_utilization : value) :
  vm_inputs_valid region instance duration duration_unit vcpu_utilization →
  generate_vm_request_body region instance duration duration_unit
    vcpu_utilization
  = Ok (VDict (list_to_map
          [("region", region);
           ("instance", instance);
           ("duration", duration);
           ("duration_unit", duration_unit);
           ("average_vcpu_utilization", vcpu_utilization)])).
Proof.
  intros (Hd & Hr & Hi & Hu & (u & -> & H0 & H1)).
  apply in_strs_unit in Hu.
  unfold generate_vm_request_body. fold duration_units.
  apply Is_true_true in Hd, Hr, Hi.
  by rewrite Hd, Hr, Hi, Hu, H0, H1.
Qed.

Lemma generate_vm_request_body_invalid
    (region instance duration duration_unit vcpu_utilization : value) :
  ¬ vm_inputs_valid region instance duration duration_unit vcpu_utilization →
  raises (generate_vm_request_body region instance duration duration_unit
            vcpu_utilization) ValueError.
Proof.
  intros Hinvalid. unfold generate_vm_request_body.
  destruct (isinstance duration TInt) eqn:Hd; [|reflexivity].
  destruct (isinstance region TStr) eqn:Hr; [|reflexivity].
  destruct (isinstance instance TStr) eqn:Hi; [|reflexivity].
  destruct (in_strs duration_unit _) eqn:Hu; [|reflexivity].
  destruct vcpu_utilization as [ | | |u| | | ]; try reflexivity.
  destruct (0 <=? u)%float eqn:H0; [|reflexivity].
  destruct (u <=? 1)%float eqn:H1; [|reflexivity].
  exfalso. apply Hinvalid. unfold vm_inputs_valid.
  rewrite Hd, Hr, Hi. repeat split.
  - by apply in_strs_unit.
  - by exists u.
Qed.

Lemma generate_storage_request_body_valid
    (region storage_type duration data_stored data_unit duration_unit : value) :
  storage_inputs_valid region storage_type duration data_stored data_unit
    duration_unit →
  generate_storage_request_body region storage_type duration data_stored
    data_unit duration_unit
  = Ok (VDict (list_to_map
          [("region", region);
           ("storage_type", normalize_storage_type storage_type);
           ("data", data_stored);
           ("data_unit", data_unit);
           ("duration", duration);
           ("duration_unit", duration_unit)])).
Proof.
  intros (Hd & Hr & Hs & Hu & Hf & Hdu).
  apply in_strs_unit in Hu, Hdu.
  unfold generate_storage_request_body. fold duration_units data_units.
  apply Is_true_true in Hd, Hr, Hs, Hf.
  rewrite Hd, Hr, Hs, Hu, Hf, Hdu. simpl.
  destruct storage_type; try discriminate.
  by rewrite eq_str_normalize.
Qed.

Lemma generate_storage_request_body_invalid
    (region storage_type duration data_stored data_unit duration_unit : value) :
  ¬ storage_inputs_valid region storage_type duration data_stored data_unit
      duration_unit →
  raises (generate_storage_request_body region storage_type duration
            data_stored data_unit duration_unit) ValueError.
Proof.
  intros Hinvalid. unfold generate_storage_request_body.
  destruct (isinstance duration TInt) eqn:Hd; [|reflexivity].
  destruct (isinstance region TStr) eqn:Hr; [|reflexivity].
  destruct (isinstance storage_type TStr) eqn:Hs; [|reflexivity].
  destruct (in_strs duration_unit _) eqn:Hu; [|reflexivity].
  destruct (isinstance data_stored TFloat) eqn:Hf; [|reflexivity].
  destruct (in_strs data_unit _) eqn:Hdu; [|reflexivity].
  exfalso. apply Hinvalid. unfold storage_inputs_valid.
  rewrite Hd, Hr, Hs, Hf. repeat split; by apply in_strs_unit.
Qed.

(** C3.  On valid inputs the two builders return a dictionary with exactly
    the fields of the request, each holding the corresponding argument (the
    storage type after the normalization of its display label); on any
    other inputs they raise [ValueError], the validation error, and return
    nothing.  Valid means: the duration is an [int] (a [bool] counts as
    one), region and instance or storage type are strings, the duration
    unit is one of ms, s, m, h, day, year, the utilization is a float
    between 0 and 1, the data is a float and the data unit is one of MB, GB,
    TB. *)
Theorem request_builders_validate :
  (∀ region instance duration duration_unit vcpu_utilization,
     (vm_inputs_valid region instance duration duration_unit vcpu_utilization →
      generate_vm_request_body region instance duration duration_unit
        vcpu_utilization
      = Ok (VDict (list_to_map
              [("region", region);
               ("instance", instance);
               ("duration", duration);
               ("duration_unit", duration_unit);
               ("average_vcpu_utilization", vcpu_utilization)]))) ∧
     (¬ vm_inputs_valid region instance duration duration_unit
          vcpu_utilization →
      raises (generate_vm_request_body region instance duration duration_unit
                vcpu_utilization) ValueError)) ∧
  (∀ region storage_type duration data_stored data_unit duration_unit,
     (storage_inputs_valid region storage_type duration data_stored data_unit
        duration_unit →
      generate_storage_request_body region storage_type duration data_stored
        data_unit duration_unit
      = Ok (VDict (list_to_map
              [("region", region);
               ("storage_type", normalize_storage_type storage_type);
               ("data", data_stored);
               ("data_unit", data_unit);
               ("duration", duration);
               ("duration_unit", duration_unit)]))) ∧
     (¬ storage_inputs_valid region storage_type duration data_stored
          data_unit duration_unit →
      raises (generate_storage_request_body region storage_type duration
                data_stored data_unit duration_unit) ValueError)).
Proof.
  split; intros; split.
  - apply generate_vm_request_body_valid.
  - apply generate_vm_request_body_invalid.
  - apply generate_storage_request_body_valid.
  - apply generate_storage_request_body_invalid.
Qed.

Lemma request_builders_validate_witness :
  generate_vm_request_body (VStr "us-east-1") (VStr "t2.micro") (VInt 10)
    (VStr "h") (VFloat 0.5) = Ok vm_body ∧
  raises (generate_vm_request_body (VStr "us-east-1") (VStr "t2.micro")
            (VFloat 10) (VStr "h") (VFloat 0.5)) ValueError.
Proof.
  split.
  - apply (proj1 (proj1 request_builders_validate _ _ _ _ _)).
    repeat split; [exists "h"|exists 0.5%float];
      (split; [reflexivity|]); [|by split].
    unfold duration_units. repeat constructor.
  - apply (proj2 (proj1 request_builders_validate _ _ _ _ _)).
    intros (Hd & _). exact Hd.
Defined.

(** C8, as the code has it.  A request body the builders return holds the
    duration argument, an instance of [int], and for storage the data
    argument, a [float]; the builders put no condition on the sign of
    either (the input widgets of the dashboard ask for a minimum, not the
    builders). *)
Theorem built_requests_keep_typed_fields :
  (∀ region instance duration duration_unit vcpu_utilization body,
     generate_vm_request_body region instance duration duration_unit
       vcpu_utilization = Ok body →
     field body "duration" = Some duration ∧ isinstance duration TInt) ∧
  (∀ region storage_type duration data_stored data_unit duration_unit body,
     generate_storage_request_body region storage_type duration data_stored
       data_unit duration_unit = Ok body →
     field body "data" = Some data_stored ∧ isinstance data_stored TFloat ∧
     field body "duration" = Some duration ∧ isinstance duration TInt).
Proof.
  split.
  - intros region instance duration duration_unit vcpu_utilization body.
    unfold generate_vm_request_body.
    destruct (isinstance duration TInt) eqn:Hd; [|discriminate].
    destruct (isinstance region TStr); [|discriminate].
    destruct (isinstance instance TStr); [|discriminate].
    destruct (in_strs duration_unit _); [|discriminate].
    destruct vcpu_utilization as [ | | |u| | | ]; try discriminate.
    destruct (0 <=? u)%float; [|discriminate].
    destruct (u <=? 1)%float; [|discriminate].
    simpl. intros [= <-]. split; [reflexivity|exact I].
  - intros region storage_type duration data_stored data_unit duration_unit
      body.
    unfold generate_storage_request_body.
    destruct (isinstance duration TInt) eqn:Hd; [|discriminate].
    destruct (isinstance region TStr); [|discriminate].
    destruct (isinstance storage_type TStr); [|discriminate].
    destruct (in_strs duration_unit _); [|discriminate].
    destruct (isinstance data_stored TFloat) eqn:Hf; [|discriminate].
    destruct (in_strs data_unit _); [|discriminate].
    simpl. intros [= <-]. repeat split; reflexivity.
Qed.

Lemma built_requests_keep_typed_fields_witness :
  field vm_body "duration" = Some (VInt 10) ∧ isinstance (VInt 10) TInt.
Proof.
  apply (proj1 built_requests_keep_typed_fields
           (VStr "us-east-1") (VStr "t2.micro") (VInt 10) (VStr "h")
           (VFloat 0.5) vm_body).
  reflexivity.
Defined.

(** C8, as stated, fails: the VM builder returns a request for a duration
    of -5, and the storage builder one for a duration of 0 and -1.0 of
    data. *)
Lemma builders_accept_nonpositive :
  (generate_vm_request_body (VStr "us-east-1") (VStr "t2.micro") (VInt (-5))
     (VStr "h") (VFloat 0.5)
   = Ok (VDict (list_to_map
           [("region", VStr "us-east-1");
            ("instance", VStr "t2.micro");
            ("duration", VInt (-5));
            ("duration_unit", VStr "h");
            ("average_vcpu_utilization", VFloat 0.5)])) ∧
   ¬ positive_int (VInt (-5))) ∧
  (generate_storage_request_body (VStr "us-east-1") (VStr "Solid-state Drive")
     (VInt 0) (VFloat (-1)) (VStr "GB") (VStr "h")
   = Ok (VDict (list_to_map
           [("region", VStr "us-east-1");
            ("storage_type", VStr "ssd");
            ("data", VFloat (-1));
            ("data_unit", VStr "GB");
            ("duration", VInt 0);
            ("duration_unit", VStr "h")])) ∧
   ¬ positive_float (VFloat (-1)) ∧ ¬ positive_int (VInt 0)).
Proof.
  repeat split; try reflexivity.
  - intros (z & [= <-] & Hz). lia.
  - intros (f & [= <-] & Hf). vm_compute in Hf. discriminate.
  - intros (z & [= <-] & Hz). lia.
Qed.

(** ** Provider names *)

(** C9.  [convert_provider_name] maps each of the six names to another of
    them and back to itself, so it is an involution, hence a bijection, on
    them; on every other string it raises [ValueError]. *)
Theorem convert_provider_name_involution :
  (∀ x, x ∈ provider_names →
     ∃ y, convert_provider_name x = Ok y ∧ y ∈ provider_names ∧
          convert_provider_name y = Ok x) ∧
  (∀ x, x ∉ provider_names → raises (convert_provider_name x) ValueError).
Proof.
  split.
  - intros x Hx. unfold provider_names in Hx. simpl in Hx.
    repeat (apply elem_of_cons in Hx as [-> | Hx]);
      [ exists "Amazon Web Services" | exists "Microsoft Azure"
      | exists "Google Cloud Platform" | exists "aws" | exists "azure"
      | exists "gcp" | by apply elem_of_nil in Hx ];
      (split; [reflexivity|]); (split; [|reflexivity]);
      unfold provider_names; simpl; repeat constructor.
  - intros x Hx. unfold convert_provider_name.
    assert (mapping !! x = None) as ->; [|reflexivity].
    apply not_elem_of_list_to_map_1. simpl. intros Hin. apply Hx.
    unfold provider_names, provider_ids, provider_display_names. simpl.
    rewrite !elem_of_cons in *. tauto.
Qed.

Lemma convert_provider_name_involution_witness :
  (∃ y, convert_provider_name "azure" = Ok y ∧ y ∈ provider_names ∧
        convert_provider_name y = Ok "azure") ∧
  raises (convert_provider_name "Azure") ValueError.
Proof.
  split.
  - apply (proj1 convert_provider_name_involution).
    unfold provider_names. simpl. repeat constructor.
  - apply (proj2 convert_provider_name_involution).
    unfold provider_names, provider_ids, provider_display_names. simpl.
    rewrite !elem_of_cons, elem_of_nil.
    intros H. repeat (destruct H as [H|H]; [discriminate H|]). exact H.
Defined.

(** ** Summing a response *)

Lemma co2_key_field (calculation_type : string) :
  (if bool_decide (calculation_type = "vm") then "total_co2e" else "co2e")
  = co2e_field calculation_type.
Proof. unfold co2e_field. by case_bool_decide; case_decide. Qed.

Lemma omap_cons {A B} (f : A → option B) (x : A) (l : list A) :
  omap f (x :: l)
  = match f x with Some y => y :: omap f l | None => omap f l end.
Proof. reflexivity. Qed.

Lemma float_of_int_range (z : Z) :
  float_of_int z
  = if in_float_range z then Ok (SF2Prim (nearest_float z))
    else Raise OverflowError "int too large to convert to float".
Proof. unfold float_of_int, in_float_range. by destruct (nearest_float z). Qed.

(** One round of the loop on an item that can be summed: what the item
    adds is added. *)
Lemma format_loop_summable calculation_type item rest acc :
  summable calculation_type item = true →
  format_loop (co2e_field calculation_type) (item :: rest) acc
  = format_loop (co2e_field calculation_type) rest
      (fold_left PrimFloat.add
         (omap (extract_co2e calculation_type) [item]) acc).
Proof.
  destruct item as [| | | | | |d]; try discriminate.
  rewrite omap_cons. simpl.
  destruct (d !! co2e_field calculation_type) as [v|]; [|reflexivity].
  destruct v as [|[]|z|f|s|l|d']; try reflexivity.
  simpl. rewrite float_of_int_range. by intros ->.
Qed.

(** One round of the loop on an item that cannot: it raises. *)
Lemma format_loop_not_summable calculation_type item rest acc :
  summable calculation_type item = false →
  raises (format_loop (co2e_field calculation_type) (item :: rest) acc)
    (match item with VDict _ => OverflowError | _ => AttributeError end).
Proof.
  destruct item as [| | | | | |d]; try reflexivity.
  simpl. destruct (d !! co2e_field calculation_type) as [v|]; [|discriminate].
  destruct v as [|[]|z|f|s|l|d']; try discriminate.
  simpl. rewrite float_of_int_range. by intros ->.
Qed.

Lemma format_loop_app calculation_type good rest acc :
  Forall (fun item => summable calculation_type item = true) good →
  format_loop (co2e_field calculation_type) (good ++ rest) acc
  = format_loop (co2e_field calculation_type) rest
      (fold_left PrimFloat.add (omap (extract_co2e calculation_type) good)
         acc).
Proof.
  intros Hgood. revert acc.
  induction Hgood as [|item good Hitem _ IH]; intros acc; [reflexivity|].
  rewrite <- app_comm_cons, format_loop_summable, IH by done.
  f_equal. rewrite !omap_cons.
  by destruct (extract_co2e calculation_type item).
Qed.

Lemma format_loop_ok calculation_type items acc total :
  format_loop (co2e_field calculation_type) items acc = Ok total →
  Forall (fun item => summable calculation_type item = true) items.
Proof.
  revert acc. induction items as [|item items IH]; intros acc; [done|].
  destruct (summable calculation_type item) eqn:Hitem.
  - rewrite format_loop_summable by done. intros H. constructor; eauto.
  - pose proof (format_loop_not_summable calculation_type item items acc
                  Hitem) as Hraise.
    intros H. by rewrite H in Hraise.
Qed.

(** The response sums to the sum of what its items add, when they all can
    be summed. *)
Lemma format_batch_response_extract response calculation_type :
  Forall (fun item => summable calculation_type item = true)
    (default [] (response !! "results")) →
  format_batch_response response calculation_type
  = Ok (sum_floats (omap (extract_co2e calculation_type)
                      (default [] (response !! "results")))).
Proof.
  intros Hall. unfold format_batch_response, sum_floats.
  rewrite co2_key_field.
  rewrite <- (app_nil_r (default [] (response !! "results"))) at 1.
  by rewrite format_loop_app.
Qed.

(** It raises at the first item that cannot. *)
Lemma format_batch_response_raises response calculation_type good bad rest :
  default [] (response !! "results") = good ++ bad :: rest →
  Forall (fun item => summable calculation_type item = true) good →
  summable calculation_type bad = false →
  raises (format_batch_response response calculation_type)
    (match bad with VDict _ => OverflowError | _ => AttributeError end).
Proof.
  intros Hitems Hgood Hbad. unfold format_batch_response.
  rewrite co2_key_field, Hitems, format_loop_app by done.
  by apply format_loop_not_summable.
Qed.

(** It returns for no other response, and raises nothing else. *)
Lemma format_batch_response_ok response calculation_type total :
  format_batch_response response calculation_type = Ok total →
  Forall (fun item => summable calculation_type item = true)
    (default [] (response !! "results")) ∧
  total = sum_floats (omap (extract_co2e calculation_type)
                        (default [] (response !! "results"))).
Proof.
  intros Hrun.
  assert (Forall (fun item => summable calculation_type item = true)
            (default [] (response !! "results"))) as Hall.
  { unfold format_batch_response in Hrun. rewrite co2_key_field in Hrun.
    by eapply format_loop_ok. }
  split; [done|].
  rewrite format_batch_response_extract in Hrun by done. congruence.
Qed.

Lemma format_loop_raise calculation_type items acc c msg :
  format_loop (co2e_field calculation_type) items acc = Raise c msg →
  c = AttributeError ∨ c = OverflowError.
Proof.
  revert acc. induction items as [|item items IH]; intros acc; [done|].
  destruct (summable calculation_type item) eqn:Hitem.
  - rewrite format_loop_summable by done. apply IH.
  - pose proof (format_loop_not_summable calculation_type item items acc
                  Hitem) as Hraise.
    intros H. rewrite H in Hraise. simpl in Hraise.
    destruct item; auto.
Qed.

Lemma format_batch_response_raise response calculation_type c msg :
  format_batch_response response calculation_type = Raise c msg →
  c = AttributeError ∨ c = OverflowError.
Proof.
  unfold format_batch_response. rewrite co2_key_field.
  apply format_loop_raise.
Qed.

Lemma format_batch_response_empty calculation_type :
  format_batch_response (results_response []) calculation_type = Ok 0%float.
Proof. reflexivity. Qed.

(** C5, as the code has it.  On a response whose items can all be summed
    (each a JSON object whose CO2e field, when it is an integer, is within
    the range of the floats) [format_batch_response] returns the sum, taken
    from 0.0 in the order of the result sequence, of the CO2e field of the
    kind ([total_co2e] for vm, [co2e] otherwise) over the items: an item
    without the field adds the default 0, an item whose field is not a
    number (an [int], [bool] included, or a [float]) adds nothing.  On any
    other response it raises at the first item that cannot be summed:
    [AttributeError] for an item that is no object, [OverflowError] for an
    integer beyond the floats; it returns in no other case.  An empty
    result sequence, or a response without one, sums to 0.0. *)
Theorem format_batch_response_sums :
  (∀ response calculation_type,
     Forall (fun item => summable calculation_type item = true)
       (default [] (response !! "results")) →
     format_batch_response response calculation_type
     = Ok (sum_floats (omap (extract_co2e calculation_type)
                         (default [] (response !! "results"))))) ∧
  (∀ response calculation_type good bad rest,
     default [] (response !! "results") = good ++ bad :: rest →
     Forall (fun item => summable calculation_type item = true) good →
     summable calculation_type bad = false →
     raises (format_batch_response response calculation_type)
       (match bad with VDict _ => OverflowError | _ => AttributeError end)) ∧
  (∀ response calculation_type total,
     format_batch_response response calculation_type = Ok total →
     Forall (fun item => summable calculation_type item = true)
       (default [] (response !! "results"))) ∧
  (∀ calculation_type,
     co2e_field calculation_type
     = if decide (calculation_type = "vm") then "total_co2e" else "co2e") ∧
  (∀ d calculation_type,
     d !! co2e_field calculation_type = None →
     summable calculation_type (VDict d) = true ∧
     extract_co2e calculation_type (VDict d) = Some 0%float) ∧
  (∀ d calculation_type v,
     d !! co2e_field calculation_type = Some v →
     isinstance v TInt || isinstance v TFloat = false →
     summable calculation_type (VDict d) = true ∧
     extract_co2e calculation_type (VDict d) = None) ∧
  (∀ d calculation_type v,
     d !! co2e_field calculation_type = Some v →
     isinstance v TInt || isinstance v TFloat = true →
     extract_co2e calculation_type (VDict d) = number v ∧
     number v ≠ None) ∧
  (∀ calculation_type,
     format_batch_response (results_response []) calculation_type
     = Ok 0%float ∧
     format_batch_response ∅ calculation_type = Ok 0%float).
Proof.
  split; [apply format_batch_response_extract|].
  split; [apply format_batch_response_raises|].
  split; [intros response ct total H;
          by apply format_batch_response_ok in H as [H _]|].
  split; [reflexivity|].
  split; [by intros d ct H; simpl; rewrite H|].
  split; [by intros d ct v H Hv; simpl; rewrite H; destruct v|].
  split; [|by split].
  intros d ct v H Hv. simpl. rewrite H. by destruct v.
Qed.

(** ** Events and worlds *)

Lemma add_events_nil (w : world) : add_events w [] = w.
Proof. destruct w. unfold add_events. simpl. by rewrite app_nil_r. Qed.

Lemma add_events_app (w : world) (a b : list event) :
  add_events (add_events w a) b = add_events w (a ++ b).
Proof. unfold add_events. simpl. by rewrite app_assoc. Qed.

Lemma log_add_events (e : event) (w : world) (evs : list event) :
  add_events (log e w) evs = add_events w (e :: evs).
Proof. unfold log. by rewrite add_events_app. Qed.

Lemma answered_by_app (w : world) (a b : list event) :
  answered_by w (a ++ b) ↔ answered_by w a ∧ answered_by (add_events w a) b.
Proof.
  revert w. induction a as [|e a IH]; intros w; simpl.
  - rewrite add_events_nil. tauto.
  - rewrite IH, log_add_events. tauto.
Qed.

Lemma posts_app (a b : list event) : posts (a ++ b) = posts a ++ posts b.
Proof. apply omap_app. Qed.

Lemma outcomes_app (a b : list event) :
  outcomes (a ++ b) = outcomes a ++ outcomes b.
Proof. unfold outcomes. by rewrite posts_app, fmap_app. Qed.

(** ** The emissions client *)

Lemma singleton_is_last {A} (x y : A) (l l' : list A) :
  [x] = l ++ y :: l' → l' = [].
Proof.
  destruct l as [|z l]; simpl; [by intros [= _ <-]|].
  intros [= _ H]. by destruct l.
Qed.

Lemma outcomes_post c o (evs : list event) :
  outcomes (HttpPost c o :: evs) = o :: outcomes evs.
Proof. reflexivity. Qed.

Lemma posts_post c o (evs : list event) :
  posts (HttpPost c o :: evs) = (c, o) :: posts evs.
Proof. reflexivity. Qed.

Ltac same_world := unfold log; rewrite ?add_events_app; reflexivity.

Ltac only_call :=
  let H := fresh in
  intros ? ? ? H _; unfold outcomes in H; simpl in H;
  by apply singleton_is_last in H.

(** The loop, whatever it has accumulated: the events it adds, and the
    dictionary it returns in terms of the outcomes among them. *)
Lemma send_loop_run url headers body_array results w :
  ∃ evs,
    send_loop url headers body_array results w
    = (results_response
         (if existsb aborts (outcomes evs) then []
          else results ++ omap estimate (outcomes evs)),
       add_events w evs) ∧
    answered_by w evs ∧
    (posts evs).*1 `prefix_of` calls_of url headers body_array ∧
    (existsb aborts (outcomes evs) = false →
     length (posts evs) = length body_array) ∧
    (∀ os o os', outcomes evs = os ++ o :: os' → aborts o = true → os' = []).
Proof.
  revert results w.
  induction body_array as [|body rest IH]; intros results w.
  { exists []. simpl. rewrite app_nil_r, add_events_nil.
    repeat split; [apply prefix_nil|]. intros os o os' H. by destruct os. }
  simpl. set (call := HttpCall url headers body 15).
  destruct (network w (trace w) call) as [f|status payload] eqn:Hanswer.
  - (* the transport raises: both handlers give up the batch *)
    destruct (issubclass (failure_class f) ConnectionError).
    + exists [HttpPost call (PostRaises f); StError (MsgNetworkFailure f);
              StError MsgVerifyConnection].
      split; [f_equal; same_world|].
      split; [by repeat split|].
      split; [by apply prefix_cons, prefix_nil|].
      split; [done|only_call].
    + exists [HttpPost call (PostRaises f);
              StError (MsgUnexpected (failure_class f))].
      split; [f_equal; same_world|].
      split; [by repeat split|].
      split; [by apply prefix_cons, prefix_nil|].
      split; [done|only_call].
  - unfold raise_for_status.
    destruct ((400 <=? status) && (status <? 600)) eqn:Hstatus.
    + (* an HTTP error response: the item is skipped *)
      set (m := if status =? 403 then MsgForbidden else MsgHttpError status).
      destruct (IH results
                  (log (StError m)
                     (log (HttpPost call (PostReturns status payload)) w)))
        as (evs & -> & Hans & Hpre & Hall & Hlast).
      exists (HttpPost call (PostReturns status payload) :: StError m :: evs).
      assert (aborts (PostReturns status payload) = false) as Habort
        by (destruct payload; simpl; by rewrite ?Hstatus).
      rewrite outcomes_post, posts_post.
      change (outcomes (StError m :: evs)) with (outcomes evs).
      change (posts (StError m :: evs)) with (posts evs).
      split.
      { destruct payload; simpl; rewrite ?Hstatus; simpl;
          f_equal; same_world. }
      split; [by repeat split|].
      split; [by apply prefix_cons|].
      split.
      { destruct payload; simpl; rewrite ?Hstatus; simpl;
          by intros ->%Hall. }
      intros [|o' os] o os'; simpl; intros [= <- H] Ho; [congruence|eauto].
    + destruct payload as [d|].
      * (* an estimate: it is appended *)
        destruct (IH (results ++ [d])
                    (log (HttpPost call (PostReturns status (JsonOk d))) w))
          as (evs & -> & Hans & Hpre & Hall & Hlast).
        exists (HttpPost call (PostReturns status (JsonOk d)) :: evs).
        rewrite outcomes_post, posts_post.
        split.
        { simpl. rewrite Hstatus. simpl. rewrite <- app_assoc.
          f_equal. same_world. }
        split; [by repeat split|].
        split; [by apply prefix_cons|].
        split.
        { simpl. by intros ->%Hall. }
        intros [|o' os] o os'; simpl; intros [= <- H] Ho.
        { simpl in Ho. discriminate. }
        eauto.
      * (* an undecodable body: the last handler gives up the batch *)
        exists [HttpPost call (PostReturns status JsonFails);
                StError (MsgUnexpected RequestsJSONDecodeError)].
        split.
        { unfold outcomes. simpl. rewrite Hstatus. f_equal. same_world. }
        split; [by repeat split|].
        split; [by apply prefix_cons, prefix_nil|].
        split; [|only_call].
        unfold outcomes. simpl. by rewrite Hstatus.
Qed.

Lemma valid_provider_test (provider : string) :
  provider ∈ provider_ids →
  negb (bool_decide (provider ∈ ["aws"; "azure"; "gcp"])) = false.
Proof. intros H. by rewrite bool_decide_eq_true_2. Qed.

(** With a key, the call is the loop run after the key was read. *)
Lemma send_batch_request_with_key provider body_array endpoint api_key w :
  provider ∈ provider_ids →
  environ w !! "API_KEY" = Some api_key → api_key ≠ "" →
  ∃ evs,
    send_batch_request provider body_array endpoint w
    = (Ok (results_response (batch_results (outcomes evs))),
       add_events w (EnvGet "API_KEY" :: evs)) ∧
    answered_by (log (EnvGet "API_KEY") w) evs ∧
    (posts evs).*1
      `prefix_of` calls_of (endpoint_url provider endpoint)
                    {[ "Authorization" := "Bearer " +:+ api_key ]} body_array ∧
    (existsb aborts (outcomes evs) = false →
     length (posts evs) = length body_array) ∧
    (∀ os o os', outcomes evs = os ++ o :: os' → aborts o = true → os' = []).
Proof.
  intros Hprovider Hkey Hnonempty.
  destruct (send_loop_run (endpoint_url provider endpoint)
              {[ "Authorization" := "Bearer " +:+ api_key ]} body_array []
              (log (EnvGet "API_KEY") w))
    as (evs & Hrun & Hans & Hpre & Hall & Hlast).
  exists evs. split; [|done].
  unfold send_batch_request. rewrite (valid_provider_test _ Hprovider).
  rewrite Hkey. destruct api_key as [|a s]; [done|].
  rewrite Hrun. unfold batch_results. simpl. f_equal. same_world.
Qed.

Lemma send_batch_request_without_key provider body_array endpoint w :
  provider ∈ provider_ids →
  environ w !! "API_KEY" = None ∨ environ w !! "API_KEY" = Some "" →
  send_batch_request provider body_array endpoint w
  = (Ok (results_response []),
     add_events w [EnvGet "API_KEY"; StError MsgApiKeyNotSet]).
Proof.
  intros Hprovider Hkey.
  unfold send_batch_request. rewrite (valid_provider_test _ Hprovider).
  destruct Hkey as [-> | ->]; unfold bind, emit, ret;
    f_equal; same_world.
Qed.

(** C1.  With a valid provider and a configured key, the call returns the
    result sequence the failure policy prescribes for the outcomes of the
    calls it made: the estimates in order with every HTTP error response
    (403 included) left out, and the empty sequence if a call aborted on a
    connectivity failure, a timeout or any other failure, whatever was
    collected before.  The calls made are those of the request bodies, in
    order and each answered by the network; all of them are made unless one
    aborts, and an aborting call is the last one made. *)
Theorem send_batch_request_failure_policy
    provider body_array endpoint api_key w :
  provider ∈ provider_ids →
  environ w !! "API_KEY" = Some api_key → api_key ≠ "" →
  ∃ evs,
    send_batch_request provider body_array endpoint w
    = (Ok (results_response (batch_results (outcomes evs))),
       add_events w (EnvGet "API_KEY" :: evs)) ∧
    answered_by (log (EnvGet "API_KEY") w) evs ∧
    (posts evs).*1
      `prefix_of` calls_of (endpoint_url provider endpoint)
                    {[ "Authorization" := "Bearer " +:+ api_key ]} body_array ∧
    (existsb aborts (outcomes evs) = false →
     length (posts evs) = length body_array) ∧
    (∀ os o os', outcomes evs = os ++ o :: os' → aborts o = true → os' = []).
Proof. apply send_batch_request_with_key. Qed.

(** C2, as the code has it.  Without a credential (no [API_KEY], or an
    empty one) the call does not raise: it reports that the key is not set
    and returns an empty result sequence, without any network call. *)
Theorem send_batch_request_missing_key provider body_array endpoint w :
  provider ∈ provider_ids →
  environ w !! "API_KEY" = None ∨ environ w !! "API_KEY" = Some "" →
  ∃ evs,
    send_batch_request provider body_array endpoint w
    = (Ok (results_response []), add_events w evs) ∧
    StError MsgApiKeyNotSet ∈ evs ∧
    posts evs = [].
Proof.
  intros Hprovider Hkey.
  exists [EnvGet "API_KEY"; StError MsgApiKeyNotSet].
  split; [by apply send_batch_request_without_key|].
  split; [|reflexivity]. repeat constructor.
Qed.

(** C10.  For a provider outside aws, azure, gcp the call raises
    [ValueError] at once: the world is as it was, so neither the key was
    read nor a call made. *)
Theorem send_batch_request_invalid_provider provider body_array endpoint w :
  provider ∉ provider_ids →
  send_batch_request provider body_array endpoint w
  = (Raise ValueError ("Invalid provider: " +:+ provider), w).
Proof.
  intros H. unfold send_batch_request.
  by rewrite bool_decide_eq_false_2.
Qed.

(** ** Metadata *)

(** C7, as the code has it.  [read_metadata] returns the parsed resource
    when the file is read and parsed, and the built-in default catalog,
    with the cause reported, when the file is not found or is not valid
    JSON; any other failure of the read is raised to the caller.  The
    default catalog covers aws, azure and gcp, each with exactly one region
    and one instance type. *)
Theorem read_metadata_fallback filepath w :
  (∀ metadata, files w filepath = Ok metadata →
     read_metadata filepath w
     = (Ok metadata, add_events w [OpenFile filepath])) ∧
  (∀ c msg, files w filepath = Raise c msg →
     issubclass c FileNotFoundError = true →
     read_metadata filepath w
     = (Ok default_metadata,
        add_events w [OpenFile filepath;
                      StError (MsgMetadataNotFound filepath)])) ∧
  (∀ c msg, files w filepath = Raise c msg →
     issubclass c FileNotFoundError = false →
     issubclass c JSONDecodeError = true →
     read_metadata filepath w
     = (Ok default_metadata,
        add_events w [OpenFile filepath;
                      StError (MsgMetadataInvalidJson filepath)])) ∧
  (∀ c msg, files w filepath = Raise c msg →
     issubclass c FileNotFoundError = false →
     issubclass c JSONDecodeError = false →
     read_metadata filepath w
     = (Raise c msg, add_events w [OpenFile filepath])) ∧
  catalog_providers default_metadata = list_to_set provider_ids ∧
  (∀ provider, provider ∈ provider_ids →
     single_entry default_metadata provider).
Proof.
  unfold read_metadata, bind, emit, ret, raise. simpl.
  repeat split.
  - by intros metadata ->.
  - intros c msg -> ->. f_equal. same_world.
  - intros c msg -> -> ->. f_equal. same_world.
  - by intros c msg -> -> ->.
  - intros provider Hp. unfold provider_ids in Hp.
    rewrite !elem_of_cons, elem_of_nil in Hp.
    destruct Hp as [-> | [-> | [-> | []]]];
      eexists _, _, _; (split; [reflexivity|]); reflexivity.
Qed.

(** ** The aggregator *)

Lemma endpoint_url_inj (p q endpoint : string) :
  p ∈ provider_ids → q ∈ provider_ids →
  endpoint_url p endpoint = endpoint_url q endpoint → p = q.
Proof.
  unfold provider_ids. rewrite !elem_of_cons, !elem_of_nil.
  intros [-> | [-> | [-> | []]]] [-> | [-> | [-> | []]]];
    unfold endpoint_url, base_url; simpl; intros H;
    try reflexivity; discriminate H.
Qed.

Lemma bucket_key_inj (p q calculation_type : string) :
  p ∈ provider_ids → q ∈ provider_ids →
  bucket_key p calculation_type = bucket_key q calculation_type → p = q.
Proof.
  unfold provider_ids. rewrite !elem_of_cons, !elem_of_nil.
  intros [-> | [-> | [-> | []]]] [-> | [-> | [-> | []]]];
    unfold bucket_key; simpl; intros H;
    try reflexivity; discriminate H.
Qed.

Lemma calls_of_url url headers body_array :
  Forall (fun c => call_url c = url) (calls_of url headers body_array).
Proof. unfold calls_of. apply Forall_fmap. by apply Forall_true. Qed.

Lemma prefix_calls_url url headers body_array
    (l : list (http_call * post_outcome)) :
  l.*1 `prefix_of` calls_of url headers body_array →
  Forall (fun co => call_url co.1 = url) l.
Proof.
  intros [k Hk]. pose proof (calls_of_url url headers body_array) as H.
  rewrite Hk in H. apply Forall_app in H as [H _].
  by apply Forall_fmap in H.
Qed.

Lemma calls_of_json url headers (body_array : list value) :
  call_json <$> calls_of url headers body_array = body_array.
Proof.
  unfold calls_of.
  induction body_array as [|b l IH]; [done|].
  rewrite !fmap_cons. by rewrite IH.
Qed.

Lemma prefix_fmap {A B} (f : A → B) (l k : list A) :
  l `prefix_of` k → f <$> l `prefix_of` f <$> k.
Proof. intros [r ->]. rewrite fmap_app. by eexists. Qed.

(** Every outcome recorded from [w] on is an answer of the network of [w]. *)
Lemma answered_outcomes (w : world) (evs : list event) :
  answered_by w evs →
  ∀ o, o ∈ outcomes evs → ∃ history c, o = network w history c.
Proof.
  revert w. induction evs as [|e evs IH]; intros w Hans o Ho.
  { by apply elem_of_nil in Ho. }
  destruct Hans as [He Hevs]. specialize (IH (log e w) Hevs).
  destruct e as [name|path|c o'|m|text];
    try (by apply IH); rewrite outcomes_post in Ho.
  apply elem_of_cons in Ho as [-> | Ho]; [eauto|by apply IH].
Qed.

(** A call for a valid provider returns, with or without a key, the result
    sequence of the policy for the calls it made, all to its own endpoint:
    the bodies posted are an initial segment of the batch, nothing is
    posted without a key, and with a key the calls are those of the
    batch. *)
Lemma send_batch_request_run provider body_array endpoint w :
  provider ∈ provider_ids →
  ∃ evs,
    send_batch_request provider body_array endpoint w
    = (Ok (results_response (batch_results (outcomes evs))),
       add_events w evs) ∧
    answered_by w evs ∧
    Forall (fun co => call_url co.1 = endpoint_url provider endpoint)
      (posts evs) ∧
    call_json <$> (posts evs).*1 `prefix_of` body_array ∧
    (no_api_key w → posts evs = []) ∧
    (∀ api_key, environ w !! "API_KEY" = Some api_key → api_key ≠ "" →
       (posts evs).*1
         `prefix_of` calls_of (endpoint_url provider endpoint)
                       {[ "Authorization" := "Bearer " +:+ api_key ]}
                       body_array ∧
       (existsb aborts (outcomes evs) = false →
        length (posts evs).*1 = length body_array) ∧
       (∀ os o os', outcomes evs = os ++ o :: os' → aborts o = true →
                    os' = [])).
Proof.
  intros Hprovider.
  assert (no_api_key w →
          ∃ evs,
            send_batch_request provider body_array endpoint w
            = (Ok (results_response (batch_results (outcomes evs))),
               add_events w evs) ∧
            answered_by w evs ∧
            Forall (fun co => call_url co.1 = endpoint_url provider endpoint)
              (posts evs) ∧
            call_json <$> (posts evs).*1 `prefix_of` body_array ∧
            (no_api_key w → posts evs = []) ∧
            (∀ api_key, environ w !! "API_KEY" = Some api_key →
               api_key ≠ "" →
               (posts evs).*1
                 `prefix_of` calls_of (endpoint_url provider endpoint)
                               {[ "Authorization" := "Bearer " +:+ api_key ]}
                               body_array ∧
               (existsb aborts (outcomes evs) = false →
                length (posts evs).*1 = length body_array) ∧
               (∀ os o os', outcomes evs = os ++ o :: os' →
                            aborts o = true → os' = []))) as Hnone.
  { intros Hkey. exists [EnvGet "API_KEY"; StError MsgApiKeyNotSet].
    rewrite send_batch_request_without_key by auto.
    split; [done|]. split; [done|]. split; [constructor|].
    split; [apply prefix_nil|]. split; [done|].
    intros api_key Hsome Hne. destruct Hkey as [Hkey|Hkey];
      rewrite Hkey in Hsome; congruence. }
  destruct (environ w !! "API_KEY") as [[|a s]|] eqn:Hkey;
    [apply Hnone; by right| |apply Hnone; by left].
  destruct (send_batch_request_with_key provider body_array endpoint
              (String a s) w Hprovider Hkey)
    as (evs & Hrun & Hans & Hpre & Hall & Hlast); [done|].
  exists (EnvGet "API_KEY" :: evs).
  split; [done|]. split; [done|].
  split; [by eapply prefix_calls_url|]. split.
  { apply (prefix_fmap call_json) in Hpre.
    by rewrite calls_of_json in Hpre. }
  split.
  { unfold no_api_key. rewrite Hkey. by intros [|]. }
  intros api_key [= <-] _. split; [done|].
  split; [|done]. rewrite length_fmap. exact Hall.
Qed.

Lemma results_response_results (results : list value) :
  default [] (results_response results !! "results") = results.
Proof. unfold results_response. by rewrite lookup_singleton_eq. Qed.

(** A block of [calculate] for a valid provider. *)
Lemma provider_block_run provider label calculation_type batch
    result_breakdown w :
  provider ∈ provider_ids →
  ∃ evs,
    provider_block provider label calculation_type
      (endpoint_of calculation_type) batch result_breakdown w
    = (bucket_update batch provider calculation_type (outcomes evs)
         result_breakdown,
       add_events w evs) ∧
    answered_by w evs ∧
    sent_to provider calculation_type evs ∧
    (batch = [] → evs = []) ∧
    call_json <$> (posts evs).*1 `prefix_of` batch ∧
    (no_api_key w → posts evs = []) ∧
    calls_batch w provider calculation_type batch (posts evs).*1
      (outcomes evs).
Proof.
  intros Hprovider. unfold provider_block.
  destruct batch as [|body batch].
  { exists []. rewrite add_events_nil.
    rewrite bool_decide_eq_false_2 by (intros H; by apply H).
    split; [done|]. split; [done|]. split; [constructor|].
    split; [done|]. split; [apply prefix_nil|]. split; [done|].
    intros api_key _ _. split; [apply prefix_nil|]. split; [done|].
    intros os o os' H. by destruct os. }
  rewrite bool_decide_eq_true_2 by done.
  set (spinner := StSpinner _).
  destruct (send_batch_request_run provider (body :: batch)
              (endpoint_of calculation_type) (log spinner w) Hprovider)
    as (evs & Hrun & Hans & Hurl & Hpre & Hkey & Hcalls).
  exists (spinner :: evs).
  split.
  { unfold bind, emit, ret, pure. rewrite Hrun.
    change (outcomes (spinner :: evs)) with (outcomes evs).
    unfold bucket_update.
    destruct (format_batch_response _ calculation_type);
      f_equal; same_world. }
  split; [by split|]. split; [exact Hurl|]. split; [done|].
  split; [exact Hpre|]. split; [exact Hkey|]. exact Hcalls.
Qed.

Lemma endpoint_of_test (calculation_type : string) :
  (if bool_decide (calculation_type = "vm") then "instance" else "storage")
  = endpoint_of calculation_type.
Proof. unfold endpoint_of. by case_bool_decide; case_decide. Qed.

(** [calculate] is its three blocks, one after the other. *)
Lemma calculate_blocks calculation_type w :
  calculate calculation_type w
  = (result_breakdown <-
       provider_block "aws" "AWS" calculation_type
         (endpoint_of calculation_type) (batch_of w "aws" calculation_type)
         (zero_breakdown calculation_type) ;;
     result_breakdown <-
       provider_block "azure" "Azure" calculation_type
         (endpoint_of calculation_type) (batch_of w "azure" calculation_type)
         result_breakdown ;;
     result_breakdown <-
       provider_block "gcp" "GCP" calculation_type
         (endpoint_of calculation_type) (batch_of w "gcp" calculation_type)
         result_breakdown ;;
     ret result_breakdown) w.
Proof. unfold calculate. rewrite endpoint_of_test. reflexivity. Qed.

(** The run of [calculate], block by block: the events of each block (none
    for a block that is not reached because an earlier one raised), and
    what is returned or raised. *)
Lemma calculate_run calculation_type w :
  ∃ e1 e2 e3,
    calculate calculation_type w
    = (then_update
         (then_update
            (bucket_update (batch_of w "aws" calculation_type) "aws"
               calculation_type (outcomes e1)
               (zero_breakdown calculation_type))
            (batch_of w "azure" calculation_type) "azure" calculation_type
            (outcomes e2))
         (batch_of w "gcp" calculation_type) "gcp" calculation_type
         (outcomes e3),
       add_events w (e1 ++ e2 ++ e3)) ∧
    answered_by w (e1 ++ e2 ++ e3) ∧
    (sent_to "aws" calculation_type e1 ∧
     sent_to "azure" calculation_type e2 ∧
     sent_to "gcp" calculation_type e3) ∧
    ((batch_of w "aws" calculation_type = [] → e1 = []) ∧
     (batch_of w "azure" calculation_type = [] → e2 = []) ∧
     (batch_of w "gcp" calculation_type = [] → e3 = [])) ∧
    (call_json <$> (posts e1).*1
       `prefix_of` batch_of w "aws" calculation_type ∧
     call_json <$> (posts e2).*1
       `prefix_of` batch_of w "azure" calculation_type ∧
     call_json <$> (posts e3).*1
       `prefix_of` batch_of w "gcp" calculation_type) ∧
    (no_api_key w → posts e1 = [] ∧ posts e2 = [] ∧ posts e3 = []) ∧
    (∀ m,
       then_update
         (then_update
            (bucket_update (batch_of w "aws" calculation_type) "aws"
               calculation_type (outcomes e1)
               (zero_breakdown calculation_type))
            (batch_of w "azure" calculation_type) "azure" calculation_type
            (outcomes e2))
         (batch_of w "gcp" calculation_type) "gcp" calculation_type
         (outcomes e3) = Ok m →
       calls_batch w "aws" calculation_type
         (batch_of w "aws" calculation_type) (posts e1).*1 (outcomes e1) ∧
       calls_batch w "azure" calculation_type
         (batch_of w "azure" calculation_type) (posts e2).*1 (outcomes e2) ∧
       calls_batch w "gcp" calculation_type
         (batch_of w "gcp" calculation_type) (posts e3).*1 (outcomes e3)).
Proof.
  rewrite calculate_blocks. unfold bind.
  destruct (provider_block_run "aws" "AWS" calculation_type
              (batch_of w "aws" calculation_type)
              (zero_breakdown calculation_type) w)
    as (e1 & -> & Hans1 & Hto1 & Hnil1 & Hpre1 & Hkey1 & Hcalls1);
    [repeat constructor|].
  destruct (bucket_update (batch_of w "aws" calculation_type) "aws"
              calculation_type (outcomes e1)
              (zero_breakdown calculation_type)) as [m1|c msg] eqn:Hm1.
  2: { (* the AWS block raises *)
    exists e1, [], []. rewrite Hm1, !app_nil_r.
    split; [done|]. split; [done|].
    split; [by repeat constructor|]. split; [done|].
    split; [by repeat split; try apply prefix_nil|].
    split; [by split; auto|]. done. }
  destruct (provider_block_run "azure" "Azure" calculation_type
              (batch_of w "azure" calculation_type) m1 (add_events w e1))
    as (e2 & -> & Hans2 & Hto2 & Hnil2 & Hpre2 & Hkey2 & Hcalls2);
    [repeat constructor|].
  destruct (bucket_update (batch_of w "azure" calculation_type) "azure"
              calculation_type (outcomes e2) m1) as [m2|c msg] eqn:Hm2.
  2: { (* the Azure block raises *)
    exists e1, e2, []. rewrite Hm1. simpl then_update.
    rewrite Hm2, !app_nil_r, add_events_app.
    split; [done|]. split; [by rewrite answered_by_app|].
    split; [by repeat constructor|]. split; [done|].
    split; [by repeat split; try apply prefix_nil|].
    split; [by split; auto|]. done. }
  destruct (provider_block_run "gcp" "GCP" calculation_type
              (batch_of w "gcp" calculation_type) m2
              (add_events (add_events w e1) e2))
    as (e3 & -> & Hans3 & Hto3 & Hnil3 & Hpre3 & Hkey3 & Hcalls3);
    [repeat constructor|].
  exists e1, e2, e3. rewrite Hm1. simpl then_update. rewrite Hm2.
  simpl then_update. unfold ret.
  split.
  { destruct (bucket_update _ "gcp" _ _ _); by rewrite !add_events_app. }
  split; [by rewrite !answered_by_app|].
  split; [done|]. split; [done|]. split; [done|].
  split; [by split; auto|]. done.
Qed.

Lemma filter_all {A} (P : A → Prop) `{∀ x, Decision (P x)} (l : list A) :
  Forall P l → filter P l = l.
Proof.
  induction 1 as [|x l Hx _ IH]; [reflexivity|].
  rewrite filter_cons_True by done. by rewrite IH.
Qed.

Lemma filter_none {A} (P : A → Prop) `{∀ x, Decision (P x)} (l : list A) :
  Forall (fun x => ¬ P x) l → filter P l = [].
Proof.
  induction 1 as [|x l Hx _ IH]; [reflexivity|].
  by rewrite filter_cons_False.
Qed.

Lemma own_outcomes_app provider calculation_type (a b : list event) :
  own_outcomes provider calculation_type (a ++ b)
  = own_outcomes provider calculation_type a
    ++ own_outcomes provider calculation_type b.
Proof. unfold own_outcomes. by rewrite posts_app, filter_app, fmap_app. Qed.

Lemma own_outcomes_own provider calculation_type (evs : list event) :
  sent_to provider calculation_type evs →
  own_outcomes provider calculation_type evs = outcomes evs.
Proof. intros H. unfold own_outcomes. by rewrite filter_all. Qed.

Lemma own_outcomes_other p q calculation_type (evs : list event) :
  p ∈ provider_ids → q ∈ provider_ids → p ≠ q →
  sent_to q calculation_type evs →
  own_outcomes p calculation_type evs = [].
Proof.
  intros Hp Hq Hne H. unfold own_outcomes. rewrite filter_none; [done|].
  eapply Forall_impl; [exact H|]. intros co Hq' Hp'. simpl in *.
  apply Hne. eapply endpoint_url_inj; [done..|]. by rewrite <- Hp', <- Hq'.
Qed.

Lemma own_calls_app provider calculation_type (a b : list event) :
  own_calls provider calculation_type (a ++ b)
  = own_calls provider calculation_type a
    ++ own_calls provider calculation_type b.
Proof. unfold own_calls. by rewrite posts_app, filter_app, fmap_app. Qed.

Lemma own_calls_own provider calculation_type (evs : list event) :
  sent_to provider calculation_type evs →
  own_calls provider calculation_type evs = (posts evs).*1.
Proof. intros H. unfold own_calls. by rewrite filter_all. Qed.

Lemma own_calls_other p q calculation_type (evs : list event) :
  p ∈ provider_ids → q ∈ provider_ids → p ≠ q →
  sent_to q calculation_type evs →
  own_calls p calculation_type evs = [].
Proof.
  intros Hp Hq Hne H. unfold own_calls. rewrite filter_none; [done|].
  eapply Forall_impl; [exact H|]. intros co Hq' Hp'. simpl in *.
  apply Hne. eapply endpoint_url_inj; [done..|]. by rewrite <- Hp', <- Hq'.
Qed.

(** The events of the three blocks, provider by provider. *)
Lemma own_of_blocks calculation_type (e1 e2 e3 : list event) :
  sent_to "aws" calculation_type e1 →
  sent_to "azure" calculation_type e2 →
  sent_to "gcp" calculation_type e3 →
  (own_outcomes "aws" calculation_type (e1 ++ e2 ++ e3) = outcomes e1 ∧
   own_outcomes "azure" calculation_type (e1 ++ e2 ++ e3) = outcomes e2 ∧
   own_outcomes "gcp" calculation_type (e1 ++ e2 ++ e3) = outcomes e3) ∧
  (own_calls "aws" calculation_type (e1 ++ e2 ++ e3) = (posts e1).*1 ∧
   own_calls "azure" calculation_type (e1 ++ e2 ++ e3) = (posts e2).*1 ∧
   own_calls "gcp" calculation_type (e1 ++ e2 ++ e3) = (posts e3).*1).
Proof.
  intros Hto1 Hto2 Hto3.
  assert ("aws" ∈ provider_ids) as Haws by repeat constructor.
  assert ("azure" ∈ provider_ids) as Hazure by repeat constructor.
  assert ("gcp" ∈ provider_ids) as Hgcp by repeat constructor.
  rewrite !own_outcomes_app, !own_calls_app.
  rewrite (own_outcomes_own "aws" _ e1),
    (own_outcomes_other "aws" "azure" _ e2),
    (own_outcomes_other "aws" "gcp" _ e3),
    (own_outcomes_other "azure" "aws" _ e1),
    (own_outcomes_own "azure" _ e2),
    (own_outcomes_other "azure" "gcp" _ e3),
    (own_outcomes_other "gcp" "aws" _ e1),
    (own_outcomes_other "gcp" "azure" _ e2),
    (own_outcomes_own "gcp" _ e3) by done.
  rewrite (own_calls_own "aws" _ e1),
    (own_calls_other "aws" "azure" _ e2),
    (own_calls_other "aws" "gcp" _ e3),
    (own_calls_other "azure" "aws" _ e1),
    (own_calls_own "azure" _ e2),
    (own_calls_other "azure" "gcp" _ e3),
    (own_calls_other "gcp" "aws" _ e1),
    (own_calls_other "gcp" "azure" _ e2),
    (own_calls_own "gcp" _ e3) by done.
  by rewrite !app_nil_r.
Qed.

(** What a block returns is the breakdown with the bucket set, and it
    returns exactly when the results can all be summed. *)
Lemma bucket_update_ok batch provider calculation_type own result_breakdown m :
  bucket_update batch provider calculation_type own result_breakdown = Ok m →
  m = bucket_set batch provider calculation_type own result_breakdown.
Proof.
  unfold bucket_update, bucket_set, bucket_value.
  destruct batch as [|body batch]; [congruence|].
  destruct (format_batch_response _ calculation_type) as [total|c msg] eqn:Hf;
    [|done].
  apply format_batch_response_ok in Hf as [_ ->].
  rewrite results_response_results. congruence.
Qed.

Lemma bucket_update_summable batch provider calculation_type own
    result_breakdown :
  Forall (fun item => summable calculation_type item = true)
    (batch_results own) →
  bucket_update batch provider calculation_type own result_breakdown
  = Ok (bucket_set batch provider calculation_type own result_breakdown).
Proof.
  intros Hall. unfold bucket_update, bucket_set, bucket_value.
  destruct batch as [|body batch]; [done|].
  rewrite format_batch_response_extract
    by (by rewrite results_response_results).
  by rewrite results_response_results.
Qed.

Lemma bucket_update_raise batch provider calculation_type own
    result_breakdown c msg :
  bucket_update batch provider calculation_type own result_breakdown
  = Raise c msg →
  c = AttributeError ∨ c = OverflowError.
Proof.
  unfold bucket_update. destruct batch as [|body batch]; [done|].
  destruct (format_batch_response _ calculation_type) as [total|c' msg']
    eqn:Hf; [done|].
  intros [= <- _]. by eapply format_batch_response_raise.
Qed.

(** The answers of a remote side whose estimates can be summed give
    results that can. *)
Lemma summable_batch_results w calculation_type (evs : list event)
    (own : list post_outcome) :
  summable_answers w calculation_type →
  answered_by w evs → own ⊆ outcomes evs →
  Forall (fun item => summable calculation_type item = true)
    (batch_results own).
Proof.
  intros Hnet Hans Hown. unfold batch_results.
  destruct (existsb aborts own); [constructor|].
  apply Forall_forall. intros item Hitem.
  apply list_elem_of_omap in Hitem as (o & Ho & Hitem).
  destruct (answered_outcomes w evs Hans o (Hown o Ho))
    as (history & c & ->).
  by eapply Hnet.
Qed.

Lemma bucket_set_lookup_eq batch provider calculation_type own
    (result_breakdown : gmap string value) :
  result_breakdown !! bucket_key provider calculation_type = Some (VInt 0) →
  bucket_set batch provider calculation_type own result_breakdown
    !! bucket_key provider calculation_type
  = Some (bucket_value batch own calculation_type).
Proof.
  intros H. destruct batch; simpl; [done|]. by rewrite lookup_insert_eq.
Qed.

Lemma bucket_set_lookup_ne batch p q calculation_type own
    (result_breakdown : gmap string value) :
  p ∈ provider_ids → q ∈ provider_ids → p ≠ q →
  bucket_set batch p calculation_type own result_breakdown
    !! bucket_key q calculation_type
  = result_breakdown !! bucket_key q calculation_type.
Proof.
  intros Hp Hq Hne. destruct batch; simpl; [done|].
  rewrite lookup_insert_ne; [done|].
  intros H. by apply bucket_key_inj in H.
Qed.

Lemma zero_breakdown_lookup provider calculation_type :
  provider ∈ provider_ids →
  zero_breakdown calculation_type !! bucket_key provider calculation_type
  = Some (VInt 0).
Proof.
  intros Hp. unfold zero_breakdown.
  destruct (decide (provider = "gcp")) as [->|Hgcp];
    [by rewrite lookup_insert_eq|].
  rewrite lookup_insert_ne
    by (intros H; apply bucket_key_inj in H; [done|repeat constructor|done]).
  destruct (decide (provider = "azure")) as [->|Hazure];
    [by rewrite lookup_insert_eq|].
  rewrite lookup_insert_ne
    by (intros H; apply bucket_key_inj in H; [done|repeat constructor|done]).
  unfold provider_ids in Hp. rewrite !elem_of_cons, elem_of_nil in Hp.
  destruct Hp as [-> | [-> | [-> | []]]]; try done.
  by rewrite lookup_insert_eq.
Qed.

Lemma dom_bucket_set batch provider calculation_type own
    (result_breakdown : gmap string value) :
  bucket_key provider calculation_type ∈ dom result_breakdown →
  dom (bucket_set batch provider calculation_type own result_breakdown)
  = dom result_breakdown.
Proof.
  intros H. destruct batch as [|body batch]; simpl; [done|].
  rewrite dom_insert_L. apply elem_of_dom in H as [v Hv].
  apply set_eq. intros k. rewrite elem_of_union, elem_of_singleton.
  split; [|tauto]. intros [-> | Hk]; [|done]. apply elem_of_dom. eauto.
Qed.

Lemma dom_zero_breakdown calculation_type :
  dom (zero_breakdown calculation_type)
  = list_to_set ((fun p => bucket_key p calculation_type) <$> provider_ids).
Proof.
  unfold zero_breakdown. rewrite !dom_insert_L, dom_empty_L. simpl.
  apply set_eq. intros k.
  rewrite !elem_of_union, !elem_of_singleton, elem_of_empty. tauto.
Qed.




(** The three blocks, one after the other, in terms of the buckets: they
    return when their results can be summed, and what they return is the
    breakdown of the three bucket values. *)
Lemma then_update_ok calculation_type b1 b2 b3 o1 o2 o3 m :
  then_update
    (then_update
       (bucket_update b1 "aws" calculation_type o1
          (zero_breakdown calculation_type))
       b2 "azure" calculation_type o2)
    b3 "gcp" calculation_type o3 = Ok m →
  m = bucket_set b3 "gcp" calculation_type o3
        (bucket_set b2 "azure" calculation_type o2
           (bucket_set b1 "aws" calculation_type o1
              (zero_breakdown calculation_type))).
Proof.
  destruct (bucket_update b1 "aws" _ _ _) as [m1|] eqn:H1; [|done].
  apply bucket_update_ok in H1 as ->. simpl.
  destruct (bucket_update b2 "azure" _ _ _) as [m2|] eqn:H2; [|done].
  apply bucket_update_ok in H2 as ->. simpl.
  by intros ->%bucket_update_ok.
Qed.

Lemma then_update_summable calculation_type b1 b2 b3 o1 o2 o3 :
  Forall (fun item => summable calculation_type item = true)
    (batch_results o1) →
  Forall (fun item => summable calculation_type item = true)
    (batch_results o2) →
  Forall (fun item => summable calculation_type item = true)
    (batch_results o3) →
  ∃ m,
    then_update
      (then_update
         (bucket_update b1 "aws" calculation_type o1
            (zero_breakdown calculation_type))
         b2 "azure" calculation_type o2)
      b3 "gcp" calculation_type o3 = Ok m.
Proof.
  intros H1 H2 H3. eexists.
  rewrite (bucket_update_summable b1) by done. simpl.
  rewrite (bucket_update_summable b2) by done. simpl.
  by rewrite (bucket_update_summable b3).
Qed.

Lemma then_update_raise calculation_type b1 b2 b3 o1 o2 o3 c msg :
  then_update
    (then_update
       (bucket_update b1 "aws" calculation_type o1
          (zero_breakdown calculation_type))
       b2 "azure" calculation_type o2)
    b3 "gcp" calculation_type o3 = Raise c msg →
  c = AttributeError ∨ c = OverflowError.
Proof.
  destruct (bucket_update b1 "aws" _ _ _) as [m1|c1 msg1] eqn:H1.
  2: { intros [= <- _]. by eapply bucket_update_raise. }
  simpl.
  destruct (bucket_update b2 "azure" _ _ _) as [m2|c2 msg2] eqn:H2.
  2: { intros [= <- _]. by eapply bucket_update_raise. }
  simpl. apply bucket_update_raise.
Qed.

Lemma buckets_lookup calculation_type b1 b2 b3 o1 o2 o3 :
  let m := bucket_set b3 "gcp" calculation_type o3
             (bucket_set b2 "azure" calculation_type o2
                (bucket_set b1 "aws" calculation_type o1
                   (zero_breakdown calculation_type))) in
  dom m
  = list_to_set ((fun p => bucket_key p calculation_type) <$> provider_ids) ∧
  m !! bucket_key "aws" calculation_type
  = Some (bucket_value b1 o1 calculation_type) ∧
  m !! bucket_key "azure" calculation_type
  = Some (bucket_value b2 o2 calculation_type) ∧
  m !! bucket_key "gcp" calculation_type
  = Some (bucket_value b3 o3 calculation_type).
Proof.
  assert ("aws" ∈ provider_ids) as Haws by repeat constructor.
  assert ("azure" ∈ provider_ids) as Hazure by repeat constructor.
  assert ("gcp" ∈ provider_ids) as Hgcp by repeat constructor.
  cbv zeta. split; [|split; [|split]].
  - assert (∀ q, q ∈ provider_ids →
              bucket_key q calculation_type
              ∈ dom (zero_breakdown calculation_type)) as Hkeys.
    { intros q Hq. apply elem_of_dom. eexists.
      by apply zero_breakdown_lookup. }
    rewrite <- dom_zero_breakdown.
    rewrite dom_bucket_set; rewrite dom_bucket_set;
      rewrite ?dom_bucket_set; auto.
  - rewrite !(bucket_set_lookup_ne _ _ "aws") by done.
    apply bucket_set_lookup_eq. by apply zero_breakdown_lookup.
  - rewrite !(bucket_set_lookup_ne _ "gcp" "azure") by done.
    apply bucket_set_lookup_eq.
    rewrite bucket_set_lookup_ne by done.
    by apply zero_breakdown_lookup.
  - apply bucket_set_lookup_eq.
    rewrite !bucket_set_lookup_ne by done.
    by apply zero_breakdown_lookup.
Qed.

(** The run of [calculate]: whether it returns, and the breakdown it then
    returns, bucket by bucket, from the outcomes of each provider's own
    calls, which are the calls of its batch. *)
Lemma calculate_buckets calculation_type w :
  ∃ r evs,
    calculate calculation_type w = (r, add_events w evs) ∧
    answered_by w evs ∧
    (summable_answers w calculation_type → ∃ m, r = Ok m) ∧
    (∀ c msg, r = Raise c msg → c = AttributeError ∨ c = OverflowError) ∧
    (∀ provider, provider ∈ provider_ids →
       (batch_of w provider calculation_type = [] →
        own_outcomes provider calculation_type evs = []) ∧
       (no_api_key w → own_calls provider calculation_type evs = []) ∧
       call_json <$> own_calls provider calculation_type evs
         `prefix_of` batch_of w provider calculation_type) ∧
    (posts evs).*1
    = own_calls "aws" calculation_type evs
      ++ own_calls "azure" calculation_type evs
      ++ own_calls "gcp" calculation_type evs ∧
    ((∀ provider, provider ∈ provider_ids →
        batch_of w provider calculation_type = []) →
     r = Ok (zero_breakdown calculation_type) ∧ evs = []) ∧
    (∀ m, r = Ok m →
       dom m
       = list_to_set
           ((fun p => bucket_key p calculation_type) <$> provider_ids) ∧
       ∀ provider, provider ∈ provider_ids →
         m !! bucket_key provider calculation_type
         = Some (bucket_value (batch_of w provider calculation_type)
                   (own_outcomes provider calculation_type evs)
                   calculation_type) ∧
         calls_batch w provider calculation_type
           (batch_of w provider calculation_type)
           (own_calls provider calculation_type evs)
           (own_outcomes provider calculation_type evs)).
Proof.
  destruct (calculate_run calculation_type w)
    as (e1 & e2 & e3 & -> & Hans & (Hto1 & Hto2 & Hto3)
        & (Hnil1 & Hnil2 & Hnil3) & (Hpre1 & Hpre2 & Hpre3) & Hkey
        & Hcalls).
  destruct (own_of_blocks calculation_type e1 e2 e3 Hto1 Hto2 Hto3)
    as [(Ho1 & Ho2 & Ho3) (Hc1 & Hc2 & Hc3)].
  eexists _, _. split; [reflexivity|]. split; [done|].
  split; [|split; [|split; [|split; [|split]]]].
  - intros Hnet. apply then_update_summable;
      eapply (summable_batch_results w _ (e1 ++ e2 ++ e3)); try done;
      intros o Ho; rewrite !outcomes_app, !elem_of_app; auto.
  - intros c msg. apply then_update_raise.
  - intros provider Hp.
    unfold provider_ids in Hp. rewrite !elem_of_cons, elem_of_nil in Hp.
    destruct Hp as [-> | [-> | [-> | []]]];
      rewrite ?Ho1, ?Ho2, ?Ho3, ?Hc1, ?Hc2, ?Hc3.
    + split; [by intros ->%Hnil1|]. split; [|done].
      intros Hk. destruct (Hkey Hk) as (-> & _ & _). done.
    + split; [by intros ->%Hnil2|]. split; [|done].
      intros Hk. destruct (Hkey Hk) as (_ & -> & _). done.
    + split; [by intros ->%Hnil3|]. split; [|done].
      intros Hk. destruct (Hkey Hk) as (_ & _ & ->). done.
  - by rewrite Hc1, Hc2, Hc3, !posts_app, !fmap_app.
  - intros Hall.
    rewrite Hnil1, Hnil2, Hnil3 by (apply Hall; repeat constructor).
    rewrite !Hall by repeat constructor. done.
  - intros m Hm. destruct (Hcalls m Hm) as (Hb1 & Hb2 & Hb3).
    apply then_update_ok in Hm as ->.
    destruct (buckets_lookup calculation_type
                (batch_of w "aws" calculation_type)
                (batch_of w "azure" calculation_type)
                (batch_of w "gcp" calculation_type)
                (outcomes e1) (outcomes e2) (outcomes e3))
      as (Hdom & Hm1 & Hm2 & Hm3).
    split; [done|]. intros provider Hp.
    unfold provider_ids in Hp. rewrite !elem_of_cons, elem_of_nil in Hp.
    destruct Hp as [-> | [-> | [-> | []]]];
      by rewrite ?Ho1, ?Ho2, ?Ho3, ?Hc1, ?Hc2, ?Hc3.
Qed.

(** C4, as the code has it.  [calculate] returns a breakdown when the
    estimates of the remote side can all be summed (each a JSON object
    whose CO2e field, when it is an integer, is within the range of the
    floats), and otherwise it may raise [AttributeError] or
    [OverflowError] and nothing else.  A breakdown it returns has exactly
    the three buckets of the kind, one per provider, and a provider whose
    batch is empty has the integer 0 in its bucket.  In every run no call
    is made to the endpoint of a provider whose batch is empty; when the
    three batches are empty [calculate] returns the breakdown of three
    zeros and has no effect at all, so no call is made. *)
Theorem calculate_covers_providers calculation_type w :
  ∃ r evs,
    calculate calculation_type w = (r, add_events w evs) ∧
    (summable_answers w calculation_type → ∃ m, r = Ok m) ∧
    (∀ c msg, r = Raise c msg → c = AttributeError ∨ c = OverflowError) ∧
    (∀ m, r = Ok m →
       dom m
       = list_to_set
           ((fun p => bucket_key p calculation_type) <$> provider_ids) ∧
       ∀ provider, provider ∈ provider_ids →
         batch_of w provider calculation_type = [] →
         m !! bucket_key provider calculation_type = Some (VInt 0)) ∧
    (∀ provider, provider ∈ provider_ids →
       batch_of w provider calculation_type = [] →
       own_outcomes provider calculation_type evs = []) ∧
    ((∀ provider, provider ∈ provider_ids →
        batch_of w provider calculation_type = []) →
     ∃ m, r = Ok m ∧
       (∀ provider, provider ∈ provider_ids →
          m !! bucket_key provider calculation_type = Some (VInt 0)) ∧
       evs = [] ∧ posts evs = []).
Proof.
  destruct (calculate_buckets calculation_type w)
    as (r & evs & Hrun & _ & Hok & Hraise & Hown & _ & Hnone & Hbuckets).
  exists r, evs. split; [done|]. split; [done|]. split; [done|].
  split; [|split].
  - intros m Hm. destruct (Hbuckets m Hm) as [Hdom Hlookup].
    split; [done|]. intros provider Hp Hempty.
    destruct (Hlookup provider Hp) as [-> _]. by rewrite Hempty.
  - intros provider Hp. by destruct (Hown provider Hp) as [? _].
  - intros Hall. destruct (Hnone Hall) as [-> ->].
    exists (zero_breakdown calculation_type). split; [done|].
    split; [|done]. intros provider Hp. by apply zero_breakdown_lookup.
Qed.


(** * Scenarios *)

(** ** The emissions client on the scripted network *)

(** Three bodies: the 403 and the 500 are skipped, the estimate is kept. *)
Example send_batch_request_skips_http_errors :
  (send_batch_request "aws" [vm_body; vm_body; vm_body] "instance"
     flaky_world).1
  = Ok (results_response [VDict {[ "total_co2e" := VFloat 1.5 ]}]).
Proof. reflexivity. Qed.

(** Five bodies: the fourth call times out, the estimate collected before
    is dropped and the fifth body is never sent. *)
Example send_batch_request_aborts_on_timeout :
  let run := send_batch_request "aws"
               [vm_body; vm_body; vm_body; vm_body; vm_body] "instance"
               flaky_world in
  run.1 = Ok (results_response []) ∧
  outcomes (trace run.2)
  = [PostReturns 403 JsonFails;
     PostReturns 200 (JsonOk (VDict {[ "total_co2e" := VFloat 1.5 ]}));
     PostReturns 500 JsonFails;
     PostRaises ReadTimedOut].
Proof. split; reflexivity. Qed.

(** A read timeout is not a [ConnectionError] of [requests]: the last
    handler, not the connectivity handler, gives up the batch. *)
Example read_timeout_handler :
  issubclass (failure_class ReadTimedOut) ConnectionError = false ∧
  issubclass (failure_class ConnectTimedOut) ConnectionError = true.
Proof. split; reflexivity. Qed.

Lemma send_batch_request_failure_policy_witness :
  ∃ evs,
    send_batch_request "aws" [vm_body; vm_body; vm_body; vm_body; vm_body]
      "instance" flaky_world
    = (Ok (results_response (batch_results (outcomes evs))),
       add_events flaky_world (EnvGet "API_KEY" :: evs)) ∧
    answered_by (log (EnvGet "API_KEY") flaky_world) evs ∧
    (posts evs).*1
      `prefix_of` calls_of (endpoint_url "aws" "instance")
                    {[ "Authorization" := "Bearer " +:+ "secret" ]}
                    [vm_body; vm_body; vm_body; vm_body; vm_body] ∧
    (existsb aborts (outcomes evs) = false →
     length (posts evs) = 5%nat) ∧
    (∀ os o os', outcomes evs = os ++ o :: os' → aborts o = true → os' = []).
Proof.
  apply (send_batch_request_failure_policy "aws"
           [vm_body; vm_body; vm_body; vm_body; vm_body] "instance" "secret"
           flaky_world).
  - repeat constructor.
  - reflexivity.
  - discriminate.
Defined.

(** C2, as stated, fails: without a key the call for AWS returns an empty
    result sequence; it raises nothing. *)
Lemma missing_key_returns_empty :
  send_batch_request "aws" [vm_body] "instance" keyless_world
  = (Ok (results_response []),
     add_events keyless_world [EnvGet "API_KEY"; StError MsgApiKeyNotSet]).
Proof. reflexivity. Qed.

Lemma send_batch_request_missing_key_witness :
  ∃ evs,
    send_batch_request "aws" [vm_body] "instance" keyless_world
    = (Ok (results_response []), add_events keyless_world evs) ∧
    StError MsgApiKeyNotSet ∈ evs ∧
    posts evs = [].
Proof.
  apply (send_batch_request_missing_key "aws" [vm_body] "instance"
           keyless_world).
  - repeat constructor.
  - left. reflexivity.
Defined.

Lemma send_batch_request_invalid_provider_witness :
  send_batch_request "ibm" [vm_body] "instance" forbidden_world
  = (Raise ValueError "Invalid provider: ibm", forbidden_world).
Proof.
  apply (send_batch_request_invalid_provider "ibm" [vm_body] "instance"
           forbidden_world).
  intros H. repeat (apply elem_of_cons in H as [H|H]; [discriminate H|]).
  by apply elem_of_nil in H.
Defined.

(** ** Metadata *)

(** C7, as stated, fails: a metadata file that cannot be read for lack of
    permission makes [read_metadata] raise [PermissionError]. *)
Lemma read_metadata_raises_unreadable :
  read_metadata "metadata.json" unreadable_world
  = (Raise PermissionError "metadata.json",
     add_events unreadable_world [OpenFile "metadata.json"]).
Proof. reflexivity. Qed.

Example read_metadata_not_found :
  (read_metadata "metadata.json" forbidden_world).1 = Ok default_metadata ∧
  trace (read_metadata "metadata.json" forbidden_world).2
  = [OpenFile "metadata.json"; StError (MsgMetadataNotFound "metadata.json")].
Proof. split; reflexivity. Qed.

(** A file that is not valid UTF-8 raises [UnicodeDecodeError], a
    [ValueError] that is no [JSONDecodeError]: it is not caught either. *)
Example unicode_error_not_caught :
  issubclass UnicodeDecodeError JSONDecodeError = false ∧
  issubclass UnicodeDecodeError FileNotFoundError = false.
Proof. split; reflexivity. Qed.

(** ** The aggregator *)

(** The fields of five items, for vm: [True] counts as the integer 1, the
    string adds nothing, the item without [total_co2e] adds the default 0,
    and 3 and 0.25 are added: 4.25. *)
Example format_batch_response_mixed :
  format_batch_response
    (results_response
       [VDict {[ "total_co2e" := VBool true ]};
        VDict {[ "total_co2e" := VStr "1.5" ]};
        VDict {[ "co2e" := VInt 3 ]};
        VDict {[ "total_co2e" := VInt 3 ]};
        VDict {[ "total_co2e" := VFloat 0.25 ]}]) "vm"
  = Ok 4.25%float.
Proof. reflexivity. Qed.

(** The largest integer that still converts, 2^1024 - 2^970 - 1, rounds to
    the largest float; the next one is beyond the range. *)
Example float_of_int_limit :
  float_of_int (2 ^ 1024 - 2 ^ 970 - 1)
  = Ok 0x1.fffffffffffffp+1023%float ∧
  float_of_int (2 ^ 1024 - 2 ^ 970)
  = Raise OverflowError "int too large to convert to float" ∧
  float_of_int (- (2 ^ 1024 - 2 ^ 970))
  = Raise OverflowError "int too large to convert to float" ∧
  float_of_int (2 ^ 53 + 1) = Ok 9007199254740992%float.
Proof. repeat split; vm_compute; reflexivity. Qed.

(** C5, as stated, fails: an item that is no JSON object (here [null],
    after an item whose field is not a number) makes the call raise
    [AttributeError], and an integer field beyond the floats makes it raise
    [OverflowError]. *)
Lemma format_batch_response_can_raise :
  format_batch_response
    (results_response [VDict {[ "total_co2e" := VStr "n/a" ]}; VNone]) "vm"
  = Raise AttributeError "'NoneType' object has no attribute 'get'" ∧
  format_batch_response
    (results_response [VDict {[ "total_co2e" := VInt (10 ^ 400) ]}]) "vm"
  = Raise OverflowError "int too large to convert to float".
Proof. split; vm_compute; reflexivity. Qed.

Lemma format_batch_response_sums_witness :
  format_batch_response
    (results_response
       [VDict {[ "total_co2e" := VInt 3 ]}; VDict {[ "co2e" := VInt 3 ]};
        VDict {[ "total_co2e" := VFloat 0.25 ]}]) "vm"
  = Ok (sum_floats
          (omap (extract_co2e "vm")
             [VDict {[ "total_co2e" := VInt 3 ]}; VDict {[ "co2e" := VInt 3 ]};
              VDict {[ "total_co2e" := VFloat 0.25 ]}])).
Proof.
  apply (proj1 format_batch_response_sums
           (results_response
              [VDict {[ "total_co2e" := VInt 3 ]};
               VDict {[ "co2e" := VInt 3 ]};
               VDict {[ "total_co2e" := VFloat 0.25 ]}]) "vm").
  repeat constructor.
Defined.

(** AWS answers 403 and Azure an estimate of 1.5, GCP has no batch. *)
Example calculate_with_forbidden_aws :
  (calculate "vm" forbidden_world).1
  = Ok (list_to_map
          [("aws_vm", VFloat 0); ("azure_vm", VFloat 1.5); ("gcp_vm", VInt 0)]).
Proof. vm_compute. reflexivity. Qed.

(** No storage batch in the session: all zero, and nothing happens. *)
Example calculate_store_without_batches :
  calculate "store" forbidden_world
  = (Ok (list_to_map
           [("aws_store", VInt 0); ("azure_store", VInt 0);
            ("gcp_store", VInt 0)]),
     forbidden_world).
Proof. vm_compute. reflexivity. Qed.

(** The estimates of the network that forbids AWS can all be summed. *)
Example forbidden_world_summable : summable_answers forbidden_world "vm".
Proof.
  intros history c item. simpl. unfold aws_forbidden.
  case_decide; simpl; [done|]. by intros [= <-].
Qed.

(** C4, as stated, fails: when AWS answers with a JSON array where an
    object is expected, [calculate] returns no mapping.  It raises
    [AttributeError] while summing the response of AWS, and Azure, whose
    batch is not empty, is never called. *)
Lemma calculate_raises_on_array :
  (calculate "vm" listing_world).1
  = Raise AttributeError "'list' object has no attribute 'get'" ∧
  batch_of listing_world "azure" "vm" = [vm_body] ∧
  own_calls "azure" "vm" (trace (calculate "vm" listing_world).2) = [].
Proof. repeat split; vm_compute; reflexivity. Qed.


Lemma calculate_covers_providers_witness :
  ∃ r evs,
    calculate "vm" forbidden_world = (r, add_events forbidden_world evs) ∧
    (summable_answers forbidden_world "vm" → ∃ m, r = Ok m) ∧
    (∀ c msg, r = Raise c msg → c = AttributeError ∨ c = OverflowError) ∧
    (∀ m, r = Ok m →
       dom m
       = list_to_set ((fun p => bucket_key p "vm") <$> provider_ids) ∧
       ∀ provider, provider ∈ provider_ids →
         batch_of forbidden_world provider "vm" = [] →
         m !! bucket_key provider "vm" = Some (VInt 0)) ∧
    (∀ provider, provider ∈ provider_ids →
       batch_of forbidden_world provider "vm" = [] →
       own_outcomes provider "vm" evs = []) ∧
    ((∀ provider, provider ∈ provider_ids →
        batch_of forbidden_world provider "vm" = []) →
     ∃ m, r = Ok m ∧
       (∀ provider, provider ∈ provider_ids →
          m !! bucket_key provider "vm" = Some (VInt 0)) ∧
       evs = [] ∧ posts evs = []).
Proof. apply (calculate_covers_providers "vm" forbidden_world). Defined.


(** * Further properties of the code *)

(** ** The emissions client *)

Lemma length_omap_le {A B} (f : A → option B) (l : list A) :
  (length (omap f l) ≤ length l)%nat.
Proof.
  induction l as [|x l IH]; [done|].
  rewrite omap_cons. destruct (f x); simpl; lia.
Qed.

Lemma length_batch_results (os : list post_outcome) :
  (length (batch_results os) ≤ length os)%nat.
Proof.
  unfold batch_results. destruct (existsb aborts os); simpl; [lia|].
  apply length_omap_le.
Qed.

Lemma batch_results_sublist (os : list post_outcome) :
  batch_results os `sublist_of` omap estimate os.
Proof.
  unfold batch_results. destruct (existsb aborts os); [|done].
  apply sublist_nil_l.
Qed.

(** X1.  For a valid provider, with or without a key, the call returns a
    result sequence no longer than the batch; its items are, in order,
    among the estimates the network gave to the calls, and the bodies
    posted are an initial segment of the batch. *)
Theorem send_batch_request_results_bounded provider body_array endpoint w :
  provider ∈ provider_ids →
  ∃ evs results,
    send_batch_request provider body_array endpoint w
    = (Ok (results_response results), add_events w evs) ∧
    answered_by w evs ∧
    call_json <$> (posts evs).*1 `prefix_of` body_array ∧
    results `sublist_of` omap estimate (outcomes evs) ∧
    (length results ≤ length body_array)%nat.
Proof.
  intros Hprovider.
  destruct (send_batch_request_run provider body_array endpoint w
              Hprovider) as (evs & Hrun & Hans & _ & Hpre & _).
  exists evs, (batch_results (outcomes evs)).
  split; [done|]. split; [done|]. split; [done|].
  split; [apply batch_results_sublist|].
  etrans; [apply length_batch_results|].
  apply prefix_length in Hpre.
  unfold outcomes. by rewrite !length_fmap in *.
Qed.

Lemma all_estimates (os : list post_outcome) :
  Forall (fun o => ∃ status d, o = PostReturns status (JsonOk d) ∧
                    raise_for_status status = false) os →
  existsb aborts os = false ∧ length (omap estimate os) = length os.
Proof.
  induction 1 as [|o os (status & d & -> & Hstatus) _ [IH1 IH2]]; [done|].
  rewrite omap_cons.
  unfold raise_for_status in Hstatus. simpl. rewrite Hstatus. simpl.
  by rewrite IH1, IH2.
Qed.

(** X2.  When the network answers every call with an estimate, a call with
    a valid provider and a key posts every body of the batch, in order, and
    returns one result per body: nothing is lost. *)
Theorem send_batch_request_complete provider body_array endpoint api_key w :
  provider ∈ provider_ids →
  environ w !! "API_KEY" = Some api_key → api_key ≠ "" →
  always_estimates w →
  ∃ evs,
    send_batch_request provider body_array endpoint w
    = (Ok (results_response (omap estimate (outcomes evs))),
       add_events w (EnvGet "API_KEY" :: evs)) ∧
    (posts evs).*1
    = calls_of (endpoint_url provider endpoint)
        {[ "Authorization" := "Bearer " +:+ api_key ]} body_array ∧
    length (omap estimate (outcomes evs)) = length body_array.
Proof.
  intros Hprovider Hkey Hnonempty Hnet.
  destruct (send_batch_request_with_key provider body_array endpoint api_key
              w Hprovider Hkey Hnonempty)
    as (evs & Hrun & Hans & Hpre & Hall & _).
  destruct (all_estimates (outcomes evs)) as [Hno Hlen].
  { apply Forall_forall. intros o Ho.
    destruct (answered_outcomes _ _ Hans o Ho) as (history & c & ->).
    apply Hnet. }
  specialize (Hall Hno).
  exists evs. unfold batch_results in Hrun. rewrite Hno in Hrun.
  split; [done|]. split.
  - apply prefix_length_eq; [done|].
    unfold calls_of. rewrite !length_fmap. lia.
  - rewrite Hlen. unfold outcomes. by rewrite length_fmap.
Qed.

Lemma send_batch_request_complete_witness :
  ∃ evs,
    send_batch_request "aws" [vm_body; vm_body] "instance" steady_world
    = (Ok (results_response (omap estimate (outcomes evs))),
       add_events steady_world (EnvGet "API_KEY" :: evs)) ∧
    (posts evs).*1
    = calls_of (endpoint_url "aws" "instance")
        {[ "Authorization" := "Bearer " +:+ "secret" ]} [vm_body; vm_body] ∧
    length (omap estimate (outcomes evs)) = 2%nat.
Proof.
  apply (send_batch_request_complete "aws" [vm_body; vm_body] "instance"
           "secret" steady_world).
  - repeat constructor.
  - reflexivity.
  - discriminate.
  - intros history c. by exists 200, (VDict {[ "total_co2e" := VFloat 0.5 ]}).
Defined.

Lemma send_batch_request_results_bounded_witness :
  ∃ evs results,
    send_batch_request "aws" [vm_body; vm_body; vm_body; vm_body] "instance"
      flaky_world
    = (Ok (results_response results), add_events flaky_world evs) ∧
    answered_by flaky_world evs ∧
    call_json <$> (posts evs).*1
      `prefix_of` [vm_body; vm_body; vm_body; vm_body] ∧
    results `sublist_of` omap estimate (outcomes evs) ∧
    (length results ≤ 4)%nat.
Proof.
  apply (send_batch_request_results_bounded "aws"
           [vm_body; vm_body; vm_body; vm_body] "instance" flaky_world).
  repeat constructor.
Defined.

(** ** The aggregator *)

Lemma calculate_all_empty calculation_type w :
  (∀ provider, provider ∈ provider_ids →
     batch_of w provider calculation_type = []) →
  calculate calculation_type w = (Ok (zero_breakdown calculation_type), w).
Proof.
  intros Hall.
  destruct (calculate_buckets calculation_type w)
    as (r & evs & -> & _ & _ & _ & _ & _ & Hnone & _).
  destruct (Hnone Hall) as [-> ->]. by rewrite add_events_nil.
Qed.

(** X3.  In every run, whether it returns a breakdown or raises,
    [calculate] calls the providers one after the other, AWS first, then
    Azure, then GCP, and the bodies it posts to a provider's endpoint are
    an initial segment of that provider's batch, in the order of the
    batch: at most one call per pending item, and none for another
    provider's items. *)
Theorem calculate_calls_in_order calculation_type w :
  ∃ r evs,
    calculate calculation_type w = (r, add_events w evs) ∧
    (posts evs).*1
    = own_calls "aws" calculation_type evs
      ++ own_calls "azure" calculation_type evs
      ++ own_calls "gcp" calculation_type evs ∧
    ∀ provider, provider ∈ provider_ids →
      call_json <$> own_calls provider calculation_type evs
        `prefix_of` batch_of w provider calculation_type.
Proof.
  destruct (calculate_buckets calculation_type w)
    as (r & evs & Hrun & _ & _ & _ & Hown & Horder & _).
  exists r, evs. split; [done|]. split; [done|].
  intros provider Hp. by destruct (Hown provider Hp) as (_ & _ & ?).
Qed.

(** X4.  Without a credential [calculate] still returns a breakdown: every
    provider with a non-empty batch gets 0.0, every other the integer 0,
    and no call is made. *)
Theorem calculate_without_key calculation_type w :
  no_api_key w →
  ∃ m evs,
    calculate calculation_type w = (Ok m, add_events w evs) ∧
    posts evs = [] ∧
    ∀ provider, provider ∈ provider_ids →
      m !! bucket_key provider calculation_type
      = Some (match batch_of w provider calculation_type with
              | [] => VInt 0
              | _ :: _ => VFloat 0
              end).
Proof.
  intros Hkey.
  destruct (calculate_run calculation_type w)
    as (e1 & e2 & e3 & Hrun & _ & _ & _ & _ & Hnone & _).
  destruct (Hnone Hkey) as (H1 & H2 & H3).
  assert (outcomes e1 = [] ∧ outcomes e2 = [] ∧ outcomes e3 = [])
    as (Ho1 & Ho2 & Ho3) by (unfold outcomes; by rewrite H1, H2, H3).
  rewrite Ho1, Ho2, Ho3 in Hrun.
  rewrite !bucket_update_summable in Hrun by constructor.
  simpl in Hrun. rewrite !bucket_update_summable in Hrun by constructor.
  simpl in Hrun. rewrite !bucket_update_summable in Hrun by constructor.
  eexists _, _. split; [exact Hrun|].
  split; [by rewrite !posts_app, H1, H2, H3|].
  destruct (buckets_lookup calculation_type
              (batch_of w "aws" calculation_type)
              (batch_of w "azure" calculation_type)
              (batch_of w "gcp" calculation_type) [] [] [])
    as (_ & Hm1 & Hm2 & Hm3).
  intros provider Hp.
  unfold provider_ids in Hp. rewrite !elem_of_cons, elem_of_nil in Hp.
  destruct Hp as [-> | [-> | [-> | []]]];
    rewrite ?Hm1, ?Hm2, ?Hm3; unfold bucket_value;
    by destruct (batch_of w _ calculation_type).
Qed.

Lemma calculate_without_key_witness :
  ∃ m evs,
    calculate "vm" keyless_world = (Ok m, add_events keyless_world evs) ∧
    posts evs = [] ∧
    ∀ provider, provider ∈ provider_ids →
      m !! bucket_key provider "vm"
      = Some (match batch_of keyless_world provider "vm" with
              | [] => VInt 0
              | _ :: _ => VFloat 0
              end).
Proof.
  apply (calculate_without_key "vm" keyless_world). by left.
Defined.

(** X6.  A response whose items all lack the CO2e field of the kind, as
    when storage estimates (which carry [co2e]) are summed as vm, sums to
    exactly 0.0. *)
Theorem format_batch_response_without_field response calculation_type :
  Forall (fun item => ∃ d : gmap string value,
            item = VDict d ∧ d !! co2e_field calculation_type = None)
    (default [] (response !! "results")) →
  format_batch_response response calculation_type = Ok 0%float.
Proof.
  intros Hall. rewrite format_batch_response_extract.
  - f_equal. unfold sum_floats.
    induction Hall as [|item items (d & -> & Hitem) _ IH]; [reflexivity|].
    rewrite omap_cons. simpl. rewrite Hitem. exact IH.
  - eapply Forall_impl; [exact Hall|].
    intros item (d & -> & Hitem). simpl. by rewrite Hitem.
Qed.

Lemma format_batch_response_without_field_witness :
  format_batch_response
    (results_response [VDict {[ "co2e" := VFloat 2.5 ]}]) "vm"
  = Ok 0%float.
Proof.
  apply (format_batch_response_without_field
           (results_response [VDict {[ "co2e" := VFloat 2.5 ]}]) "vm").
  repeat constructor. by eexists.
Defined.

(** ** Request bodies *)

Lemma generate_storage_request_body_ok_valid
    region storage_type duration data_stored data_unit duration_unit body :
  generate_storage_request_body region storage_type duration data_stored
    data_unit duration_unit = Ok body →
  storage_inputs_valid region storage_type duration data_stored data_unit
    duration_unit.
Proof.
  unfold generate_storage_request_body.
  destruct (isinstance duration TInt) eqn:Hd; [|discriminate].
  destruct (isinstance region TStr) eqn:Hr; [|discriminate].
  destruct (isinstance storage_type TStr) eqn:Hs; [|discriminate].
  destruct (in_strs duration_unit _) eqn:Hu; [|discriminate].
  destruct (isinstance data_stored TFloat) eqn:Hf; [|discriminate].
  destruct (in_strs data_unit _) eqn:Hdu; [|discriminate].
  intros _. unfold storage_inputs_valid.
  rewrite Hd, Hr, Hs, Hf. repeat split; by apply in_strs_unit.
Qed.

Lemma generate_vm_request_body_ok_valid
    region instance duration duration_unit vcpu_utilization body :
  generate_vm_request_body region instance duration duration_unit
    vcpu_utilization = Ok body →
  vm_inputs_valid region instance duration duration_unit vcpu_utilization.
Proof.
  unfold generate_vm_request_body.
  destruct (isinstance duration TInt) eqn:Hd; [|discriminate].
  destruct (isinstance region TStr) eqn:Hr; [|discriminate].
  destruct (isinstance instance TStr) eqn:Hi; [|discriminate].
  destruct (in_strs duration_unit _) eqn:Hu; [|discriminate].
  destruct vcpu_utilization as [ | | |u| | | ]; try discriminate.
  destruct (0 <=? u)%float eqn:H0; [|discriminate].
  destruct (u <=? 1)%float eqn:H1; [|discriminate].
  intros _. unfold vm_inputs_valid.
  rewrite Hd, Hr, Hi. repeat split; [by apply in_strs_unit|by exists u].
Qed.

Lemma normalize_storage_type_idempotent (v : value) :
  normalize_storage_type (normalize_storage_type v)
  = normalize_storage_type v.
Proof.
  destruct v as [ | | | |s| | ]; try reflexivity. simpl.
  repeat case_decide; simpl; repeat case_decide; done.
Qed.

Lemma normalize_storage_type_str (v : value) :
  isinstance v TStr → isinstance (normalize_storage_type v) TStr.
Proof.
  destruct v as [ | | | |s| | ]; try done. simpl.
  by repeat case_decide.
Qed.

(** X7.  The normalization of the storage type is idempotent: a storage
    request rebuilt from the storage type of a returned body, the other
    arguments being the same, is that same body. *)
Theorem generate_storage_request_body_rebuild
    region storage_type duration data_stored data_unit duration_unit body :
  generate_storage_request_body region storage_type duration data_stored
    data_unit duration_unit = Ok body →
  ∃ normalized,
    field body "storage_type" = Some normalized ∧
    generate_storage_request_body region normalized duration data_stored
      data_unit duration_unit = Ok body.
Proof.
  intros Hbody.
  pose proof (generate_storage_request_body_ok_valid _ _ _ _ _ _ _ Hbody)
    as Hvalid.
  rewrite (generate_storage_request_body_valid _ _ _ _ _ _ Hvalid) in Hbody.
  injection Hbody as <-.
  exists (normalize_storage_type storage_type). split; [reflexivity|].
  destruct Hvalid as (Hd & Hr & Hs & Hu & Hf & Hdu).
  rewrite generate_storage_request_body_valid.
  - by rewrite normalize_storage_type_idempotent.
  - repeat split; try done. by apply normalize_storage_type_str.
Qed.

Lemma generate_storage_request_body_rebuild_witness :
  ∃ normalized,
    field
      (VDict (list_to_map
         [("region", VStr "us-east-1");
          ("storage_type", VStr "ssd");
          ("data", VFloat 2.5);
          ("data_unit", VStr "GB");
          ("duration", VInt 10);
          ("duration_unit", VStr "h")])) "storage_type" = Some normalized ∧
    generate_storage_request_body (VStr "us-east-1") normalized (VInt 10)
      (VFloat 2.5) (VStr "GB") (VStr "h")
    = Ok (VDict (list_to_map
            [("region", VStr "us-east-1");
             ("storage_type", VStr "ssd");
             ("data", VFloat 2.5);
             ("data_unit", VStr "GB");
             ("duration", VInt 10);
             ("duration_unit", VStr "h")])).
Proof.
  apply (generate_storage_request_body_rebuild (VStr "us-east-1")
           (VStr "Solid-state Drive") (VInt 10) (VFloat 2.5) (VStr "GB")
           (VStr "h")).
  reflexivity.
Defined.

(** ** The session's batches *)

(** An empty batch for each key of [keys], whatever was there. *)
Lemma clear_fold_lookup (keys : list string) (w : world) (key : string) :
  session_state
    (fold_left (fun w key => set_session_state key [] w) keys w) !! key
  = if bool_decide (key ∈ keys) then Some [] else session_state w !! key.
Proof.
  revert w. induction keys as [|k keys IH]; intros w; [done|].
  simpl. rewrite IH. simpl.
  destruct (decide (key = k)) as [->|Hne].
  - rewrite lookup_insert_eq. rewrite (bool_decide_eq_true_2 (k ∈ k :: keys))
      by constructor. by case_bool_decide.
  - rewrite lookup_insert_ne by done.
    case_bool_decide as Hin.
    + by rewrite bool_decide_eq_true_2 by by constructor.
    + rewrite bool_decide_eq_false_2; [done|].
      intros [?|?]%elem_of_cons; done.
Qed.

Lemma clear_fold_frame (keys : list string) (w : world) :
  let w' := fold_left (fun w key => set_session_state key [] w) keys w in
  environ w' = environ w ∧ files w' = files w ∧ network w' = network w ∧
  trace w' = trace w.
Proof.
  revert w. induction keys as [|k keys IH]; intros w; [done|].
  simpl. by destruct (IH (set_session_state k [] w)) as (-> & -> & -> & ->).
Qed.

Lemma reset_batches_lookup (p : page) (key : string) :
  session_state (page_world (reset_batches p)) !! key
  = if bool_decide (key ∈ batch_keys) then Some []
    else session_state (page_world p) !! key.
Proof.
  cbv [reset_batches page_world page_shown]. destruct p as [w shown].
  apply (clear_fold_lookup batch_keys).
Qed.

(** X8.  [reset_batches] leaves each of the six batches empty and reports
    it; every other key of the session, the environment and the trace are
    as they were. *)
Theorem reset_batches_clears (p : page) :
  let w' := page_world (reset_batches p) in
  (∀ key, key ∈ batch_keys → session_state w' !! key = Some []) ∧
  (∀ key, key ∉ batch_keys →
     session_state w' !! key = session_state (page_world p) !! key) ∧
  environ w' = environ (page_world p) ∧
  trace w' = trace (page_world p) ∧
  page_shown (reset_batches p)
  = page_shown p ++ [StSuccess "All calculation entries have been reset"].
Proof.
  cbv [reset_batches page_world page_shown].
  destruct p as [w shown].
  destruct (clear_fold_frame batch_keys w)
    as (Henv & _ & _ & Htrace).
  split; [|split; [|done]].
  - intros key Hkey. rewrite (clear_fold_lookup batch_keys).
    by rewrite bool_decide_eq_true_2.
  - intros key Hkey. rewrite (clear_fold_lookup batch_keys).
    by rewrite bool_decide_eq_false_2.
Qed.

Lemma batch_key_known (provider calculation_type : string) :
  provider ∈ provider_ids → calculation_type ∈ ["vm"; "store"] →
  batch_key provider calculation_type ∈ batch_keys.
Proof.
  unfold provider_ids. rewrite !elem_of_cons, !elem_of_nil.
  intros [-> | [-> | [-> | []]]] [-> | [-> | []]];
    unfold batch_keys; simpl; repeat constructor.
Qed.

(** X9.  After [reset_batches], [calculate] for vm and for store returns
    the all-zero breakdown and does nothing: no call, no message. *)
Theorem reset_then_calculate (p : page) (calculation_type : string) :
  calculation_type ∈ ["vm"; "store"] →
  calculate calculation_type (page_world (reset_batches p))
  = (Ok (zero_breakdown calculation_type), page_world (reset_batches p)).
Proof.
  intros Hkind. apply calculate_all_empty. intros provider Hp.
  unfold batch_of. rewrite reset_batches_lookup.
  by rewrite bool_decide_eq_true_2 by by apply batch_key_known.
Qed.

Lemma reset_then_calculate_witness :
  calculate "store" (page_world (reset_batches (Page forbidden_world [])))
  = (Ok (zero_breakdown "store"),
     page_world (reset_batches (Page forbidden_world []))).
Proof.
  apply (reset_then_calculate (Page forbidden_world []) "store").
  repeat constructor.
Defined.

Lemma init_fold_lookup (keys : list string) (w : world) (key : string) :
  session_state
    (fold_left
       (fun w key =>
          match session_state w !! key with
          | Some _ => w
          | None => set_session_state key [] w
          end) keys w) !! key
  = match session_state w !! key with
    | Some batch => Some batch
    | None => if bool_decide (key ∈ keys) then Some [] else None
    end.
Proof.
  revert w. induction keys as [|k keys IH]; intros w.
  { simpl. by destruct (session_state w !! key). }
  simpl. rewrite IH.
  destruct (session_state w !! k) eqn:Hk.
  - destruct (session_state w !! key) eqn:Hkey; [done|].
    assert (key ≠ k) by congruence.
    case_bool_decide as Hin.
    + by rewrite bool_decide_eq_true_2 by by constructor.
    + rewrite bool_decide_eq_false_2; [done|].
      intros [?|?]%elem_of_cons; done.
  - simpl. destruct (decide (key = k)) as [->|Hne].
    + rewrite lookup_insert_eq, Hk.
      by rewrite bool_decide_eq_true_2 by constructor.
    + rewrite lookup_insert_ne by done.
      destruct (session_state w !! key); [done|].
      case_bool_decide as Hin.
      * by rewrite bool_decide_eq_true_2 by by constructor.
      * rewrite bool_decide_eq_false_2; [done|].
        intros [?|?]%elem_of_cons; done.
Qed.

Lemma init_fold_present (keys : list string) (w : world) :
  (∀ key, key ∈ keys → is_Some (session_state w !! key)) →
  fold_left
    (fun w key =>
       match session_state w !! key with
       | Some _ => w
       | None => set_session_state key [] w
       end) keys w = w.
Proof.
  induction keys as [|k keys IH]; intros Hpresent; [done|].
  simpl. destruct (Hpresent k) as [batch ->]; [constructor|].
  apply IH. intros key Hkey. apply Hpresent. by constructor.
Qed.

(** X10.  The initialization of the session keeps every batch it finds,
    gives an empty batch to each of the six keys that is missing, adds no
    other key, and changes nothing when run again: a rerun of the script
    never loses an item. *)
Theorem init_session_state_keeps (w : world) :
  (∀ key batch, session_state w !! key = Some batch →
     session_state (init_session_state w) !! key = Some batch) ∧
  (∀ key, key ∈ batch_keys → session_state w !! key = None →
     session_state (init_session_state w) !! key = Some []) ∧
  (∀ key, key ∉ batch_keys → session_state w !! key = None →
     session_state (init_session_state w) !! key = None) ∧
  init_session_state (init_session_state w) = init_session_state w.
Proof.
  unfold init_session_state. repeat split.
  - intros key batch H. by rewrite init_fold_lookup, H.
  - intros key Hkey H. rewrite init_fold_lookup, H.
    by rewrite bool_decide_eq_true_2.
  - intros key Hkey H. rewrite init_fold_lookup, H.
    by rewrite bool_decide_eq_false_2.
  - apply init_fold_present. intros key Hkey.
    rewrite init_fold_lookup.
    destruct (session_state w !! key); [done|].
    by rewrite bool_decide_eq_true_2.
Qed.

(** X11.  A submission of the VM form whose inputs the builder accepts
    puts the built body at the end of the provider's VM batch; the items
    already there keep their order, and every other batch, the environment
    and the trace are untouched. *)
Theorem submit_vm_form_appends provider region instance_type duration unit
    vcpu_utilization (p : page) batch body :
  generate_vm_request_body region instance_type duration unit
    vcpu_utilization = Ok body →
  session_state (page_world p) !! (provider +:+ "_vm_batch") = Some batch →
  ∃ p',
    submit_vm_form provider region instance_type duration unit
      vcpu_utilization p = (Returned tt, p') ∧
    session_state (page_world p') !! (provider +:+ "_vm_batch")
    = Some (batch ++ [body]) ∧
    (∀ key, key ≠ provider +:+ "_vm_batch" →
       session_state (page_world p') !! key
       = session_state (page_world p) !! key) ∧
    environ (page_world p') = environ (page_world p) ∧
    trace (page_world p') = trace (page_world p).
Proof.
  intros Hbody Hbatch. unfold submit_vm_form. rewrite Hbody, Hbatch.
  eexists. split; [reflexivity|]. simpl.
  split; [by rewrite lookup_insert_eq|]. split; [|done].
  intros key Hkey. by rewrite lookup_insert_ne.
Qed.

Lemma submit_vm_form_appends_witness :
  ∃ p',
    submit_vm_form "aws" (VStr "us-east-1") (VStr "t2.micro") (VInt 10)
      (VStr "h") (VFloat 0.5) (Page forbidden_world [])
    = (Returned tt, p') ∧
    session_state (page_world p') !! ("aws" +:+ "_vm_batch")
    = Some ([vm_body] ++ [vm_body]) ∧
    (∀ key, key ≠ "aws" +:+ "_vm_batch" →
       session_state (page_world p') !! key
       = session_state forbidden_world !! key) ∧
    environ (page_world p') = environ forbidden_world ∧
    trace (page_world p') = trace forbidden_world.
Proof.
  apply (submit_vm_form_appends "aws" (VStr "us-east-1") (VStr "t2.micro")
           (VInt 10) (VStr "h") (VFloat 0.5) (Page forbidden_world [])
           [vm_body] vm_body); reflexivity.
Defined.

(** X12.  A submission of the storage form whose inputs the builder
    accepts puts the built body, with its storage type normalized, at the
    end of the provider's storage batch and touches no other batch. *)
Theorem submit_storage_form_appends provider region storage_type duration
    data_stored data_unit unit (p : page) batch body :
  generate_storage_request_body region storage_type duration data_stored
    data_unit unit = Ok body →
  session_state (page_world p) !! (provider +:+ "_store_batch") = Some batch →
  ∃ p',
    submit_storage_form provider region storage_type duration data_stored
      data_unit unit p = (Returned tt, p') ∧
    session_state (page_world p') !! (provider +:+ "_store_batch")
    = Some (batch ++ [body]) ∧
    field body "storage_type" = Some (normalize_storage_type storage_type) ∧
    (∀ key, key ≠ provider +:+ "_store_batch" →
       session_state (page_world p') !! key
       = session_state (page_world p) !! key) ∧
    environ (page_world p') = environ (page_world p) ∧
    trace (page_world p') = trace (page_world p).
Proof.
  intros Hbody Hbatch. unfold submit_storage_form. rewrite Hbody, Hbatch.
  eexists. split; [reflexivity|]. simpl.
  split; [by rewrite lookup_insert_eq|]. split.
  - pose proof (generate_storage_request_body_ok_valid _ _ _ _ _ _ _ Hbody)
      as Hvalid.
    rewrite (generate_storage_request_body_valid _ _ _ _ _ _ Hvalid) in Hbody.
    by injection Hbody as <-.
  - split; [|done]. intros key Hkey. by rewrite lookup_insert_ne.
Qed.

Lemma submit_storage_form_appends_witness :
  ∃ p',
    submit_storage_form "azure" (VStr "eastus") (VStr "Hard Disk Drive")
      (VInt 3) (VFloat 2.5) (VStr "TB") (VStr "day")
      (Page (init_session_state forbidden_world) [])
    = (Returned tt, p') ∧
    session_state (page_world p') !! ("azure" +:+ "_store_batch")
    = Some ([] ++ [VDict (list_to_map
                     [("region", VStr "eastus");
                      ("storage_type", VStr "hdd");
                      ("data", VFloat 2.5);
                      ("data_unit", VStr "TB");
                      ("duration", VInt 3);
                      ("duration_unit", VStr "day")])]) ∧
    field (VDict (list_to_map
             [("region", VStr "eastus");
              ("storage_type", VStr "hdd");
              ("data", VFloat 2.5);
              ("data_unit", VStr "TB");
              ("duration", VInt 3);
              ("duration_unit", VStr "day")])) "storage_type"
    = Some (normalize_storage_type (VStr "Hard Disk Drive")) ∧
    (∀ key, key ≠ "azure" +:+ "_store_batch" →
       session_state (page_world p') !! key
       = session_state (init_session_state forbidden_world) !! key) ∧
    environ (page_world p') = environ (init_session_state forbidden_world) ∧
    trace (page_world p') = trace (init_session_state forbidden_world).
Proof.
  apply (submit_storage_form_appends "azure" (VStr "eastus")
           (VStr "Hard Disk Drive") (VInt 3) (VFloat 2.5) (VStr "TB")
           (VStr "day") (Page (init_session_state forbidden_world) []) []);
    reflexivity.
Defined.

(** X13.  A submission whose inputs the builder rejects raises the
    builder's [ValueError] and leaves the page as it was: nothing is added
    to any batch and nothing is shown. *)
Theorem submit_forms_reject (provider : string) (p : page) :
  (∀ region instance_type duration unit vcpu_utilization,
     ¬ vm_inputs_valid region instance_type duration unit vcpu_utilization →
     ∃ msg,
       submit_vm_form provider region instance_type duration unit
         vcpu_utilization p = (Raised ValueError msg, p)) ∧
  (∀ region storage_type duration data_stored data_unit unit,
     ¬ storage_inputs_valid region storage_type duration data_stored
         data_unit unit →
     ∃ msg,
       submit_storage_form provider region storage_type duration data_stored
         data_unit unit p = (Raised ValueError msg, p)).
Proof.
  split.
  - intros region instance_type duration unit vcpu_utilization Hinvalid.
    apply generate_vm_request_body_invalid in Hinvalid.
    unfold submit_vm_form.
    destruct (generate_vm_request_body _ _ _ _ _) as [body|c msg];
      [done|]. simpl in Hinvalid. subst c. by exists msg.
  - intros region storage_type duration data_stored data_unit unit Hinvalid.
    apply generate_storage_request_body_invalid in Hinvalid.
    unfold submit_storage_form.
    destruct (generate_storage_request_body _ _ _ _ _ _) as [body|c msg];
      [done|]. simpl in Hinvalid. subst c. by exists msg.
Qed.

Lemma init_session_state_present (w : world) (key : string) :
  key ∈ batch_keys →
  is_Some (session_state (init_session_state w) !! key).
Proof.
  intros Hkey. unfold init_session_state. rewrite init_fold_lookup.
  destruct (session_state w !! key); [done|].
  by rewrite bool_decide_eq_true_2.
Qed.

(** X14.  On an initialized session, for each provider the selection box
    offers, [convert_provider_name] gives the provider id whose two batches
    exist: a submission the builder accepts runs through, whatever the
    session held before. *)
Theorem submit_after_init (display : string) (w : world) (shown : list widget) :
  display ∈ provider_display_names →
  ∃ provider,
    convert_provider_name display = Ok provider ∧
    provider ∈ provider_ids ∧
    (∀ region instance_type duration unit vcpu_utilization,
       vm_inputs_valid region instance_type duration unit vcpu_utilization →
       (submit_vm_form provider region instance_type duration unit
          vcpu_utilization (Page (init_session_state w) shown)).1
       = Returned tt) ∧
    (∀ region storage_type duration data_stored data_unit unit,
       storage_inputs_valid region storage_type duration data_stored
         data_unit unit →
       (submit_storage_form provider region storage_type duration
          data_stored data_unit unit (Page (init_session_state w) shown)).1
       = Returned tt).
Proof.
  intros Hdisplay.
  assert (∃ provider,
            convert_provider_name display = Ok provider ∧
            provider ∈ provider_ids ∧
            provider +:+ "_vm_batch" ∈ batch_keys ∧
            provider +:+ "_store_batch" ∈ batch_keys)
    as (provider & Hconvert & Hprovider & Hvm & Hstore).
  { unfold provider_display_names in Hdisplay.
    rewrite !elem_of_cons, elem_of_nil in Hdisplay.
    destruct Hdisplay as [-> | [-> | [-> | []]]];
      [exists "aws"|exists "azure"|exists "gcp"];
      (split; [reflexivity|]); repeat split; repeat constructor. }
  exists provider. split; [done|]. split; [done|]. split.
  - intros region instance_type duration unit vcpu_utilization Hvalid.
    unfold submit_vm_form.
    rewrite (generate_vm_request_body_valid _ _ _ _ _ Hvalid). simpl.
    by destruct (init_session_state_present w _ Hvm) as [batch ->].
  - intros region storage_type duration data_stored data_unit unit Hvalid.
    unfold submit_storage_form.
    rewrite (generate_storage_request_body_valid _ _ _ _ _ _ Hvalid). simpl.
    by destruct (init_session_state_present w _ Hstore) as [batch ->].
Qed.

Lemma submit_after_init_witness :
  ∃ provider,
    convert_provider_name "Microsoft Azure" = Ok provider ∧
    provider ∈ provider_ids ∧
    (∀ region instance_type duration unit vcpu_utilization,
       vm_inputs_valid region instance_type duration unit vcpu_utilization →
       (submit_vm_form provider region instance_type duration unit
          vcpu_utilization (Page (init_session_state keyless_world) [])).1
       = Returned tt) ∧
    (∀ region storage_type duration data_stored data_unit unit,
       storage_inputs_valid region storage_type duration data_stored
         data_unit unit →
       (submit_storage_form provider region storage_type duration
          data_stored data_unit unit
          (Page (init_session_state keyless_world) [])).1
       = Returned tt).
Proof.
  apply (submit_after_init "Microsoft Azure" keyless_world []).
  repeat constructor.
Defined.

(** ** The pie chart *)

Lemma split_on_nonempty (sep : ascii) (s : string) : split_on sep s ≠ [].
Proof.
  destruct s as [|c s]; simpl; [done|].
  case_decide; [done|]. by destruct (split_on sep s).
Qed.

Lemma split_on_join (sep : ascii) (p s : string) :
  occurs sep p = false →
  split_on sep (p +:+ String sep s) = p :: split_on sep s.
Proof.
  induction p as [|c p IH]; simpl.
  - intros _. by rewrite decide_True.
  - intros [Hc Hp]%orb_false_iff. apply bool_decide_eq_false in Hc.
    rewrite decide_False by done. by rewrite IH.
Qed.

Lemma split_on_no_sep (sep : ascii) (s : string) :
  occurs sep s = false → split_on sep s = [s].
Proof.
  induction s as [|c s IH]; simpl; [done|].
  intros [Hc Hs]%orb_false_iff. apply bool_decide_eq_false in Hc.
  rewrite decide_False by done. by rewrite IH.
Qed.

Lemma split_on_single (sep : ascii) (k s : string) :
  split_on sep k = [s] → k = s ∧ occurs sep s = false.
Proof.
  revert s. induction k as [|c k IH]; intros s; simpl.
  { by intros [= <-]. }
  case_decide as Hc.
  - intros [= _ H]. by apply split_on_nonempty in H.
  - destruct (split_on sep k) as [|part parts] eqn:Hk.
    { by apply split_on_nonempty in Hk. }
    intros [= <- ->]. destruct (IH part eq_refl) as [-> Hpart].
    split; [done|]. simpl. rewrite Hpart.
    by rewrite bool_decide_eq_false_2.
Qed.

Lemma split_on_more (sep : ascii) (k p q : string) (rest : list string) :
  split_on sep k = p :: q :: rest →
  ∃ k', k = p +:+ String sep k' ∧ occurs sep p = false ∧
        split_on sep k' = q :: rest.
Proof.
  revert p. induction k as [|c k IH]; intros p; simpl; [done|].
  case_decide as Hc.
  - intros [= <- H]. subst c. by exists k.
  - destruct (split_on sep k) as [|part parts] eqn:Hk.
    { by apply split_on_nonempty in Hk. }
    intros [= <- ->].
    destruct (IH part eq_refl) as (k' & -> & Hpart & Hk').
    exists k'. split; [done|]. split; [|done].
    simpl. rewrite Hpart. by rewrite bool_decide_eq_false_2.
Qed.

(** The two parts of a category with one underscore, and back. *)
Lemma split_on_two (k p s : string) :
  split_on "_" k = [p; s] ↔
  k = p +:+ "_" +:+ s ∧ occurs "_" p = false ∧ occurs "_" s = false.
Proof.
  split.
  - intros (k' & -> & Hp & Hk')%split_on_more.
    by apply split_on_single in Hk' as [-> Hs].
  - intros (-> & Hp & Hs).
    change (p +:+ "_" +:+ s) with (p +:+ String "_" s).
    by rewrite split_on_join, split_on_no_sep.
Qed.

Lemma provider_names_convert (provider : string) :
  provider ∈ provider_names ↔
  ∃ name, convert_provider_name provider = Ok name.
Proof.
  split.
  - unfold provider_names, provider_ids, provider_display_names. simpl.
    rewrite !elem_of_cons, elem_of_nil.
    intros [-> | [-> | [-> | [-> | [-> | [-> | []]]]]]]; by eexists.
  - intros [name H]. unfold convert_provider_name in H.
    destruct (mapping !! provider) as [name'|] eqn:Hm; [|done].
    apply elem_of_list_to_map_2 in Hm.
    unfold provider_names, provider_ids, provider_display_names. simpl.
    rewrite !elem_of_cons, elem_of_nil in *.
    destruct Hm as [Hm | [Hm | [Hm | [Hm | [Hm | [Hm | []%elem_of_nil]]]]]];
      injection Hm as Hp _; rewrite Hp; clear;
      repeat (first [left; reflexivity | right]).
Qed.

Lemma provider_names_no_underscore (provider : string) :
  provider ∈ provider_names → occurs "_" provider = false.
Proof.
  unfold provider_names, provider_ids, provider_display_names. simpl.
  rewrite !elem_of_cons, elem_of_nil.
  by intros [-> | [-> | [-> | [-> | [-> | [-> | []]]]]]].
Qed.

Lemma labels_labelled capitalize (kv row : string * num) :
  labels capitalize kv row → labelled kv.1.
Proof.
  intros (_ & provider & service & name & Hk & _ & Hs & Hname & _).
  exists provider, service. split; [done|]. split; [|done].
  apply provider_names_convert. eauto.
Qed.

(** The loop, whatever it has collected: it returns the records collected
    and a record for each item, or it raises [ValueError]. *)
Lemma process_data_run capitalize
    (items processed_data : list (string * num)) :
  match process_data capitalize items processed_data with
  | Ok rows =>
      ∃ new, rows = processed_data ++ new
             ∧ Forall2 (labels capitalize) items new
  | Raise c _ => c = ValueError ∧ ¬ Forall (fun kv => labelled kv.1) items
  end.
Proof.
  revert processed_data.
  induction items as [|[category value] items IH]; intros processed_data.
  { exists []. by rewrite app_nil_r. }
  simpl.
  destruct (split_on "_" category) as [|provider [|service [|x parts]]]
    eqn:Hsplit.
  - by apply split_on_nonempty in Hsplit.
  - split; [done|]. intros Hall. apply Forall_cons in Hall as [Hk _].
    destruct Hk as (p & s & Hk & Hp & Hs). simpl in Hk.
    apply provider_names_no_underscore in Hp.
    assert (split_on "_" category = [p; s]) as Hsplit'
      by (apply split_on_two; auto).
    congruence.
  - apply split_on_two in Hsplit as (Hk & Hp & Hs).
    destruct (convert_provider_name provider) as [name|c msg] eqn:Hname.
    + specialize (IH (processed_data
                        ++ [(name +:+ " " +:+ capitalize service, value)])).
      destruct (process_data capitalize items _) as [rows|c msg].
      * destruct IH as (new & -> & Hnew).
        exists ((name +:+ " " +:+ capitalize service, value) :: new).
        split; [by rewrite <- app_assoc|].
        constructor; [|done]. split; [done|].
        by exists provider, service, name.
      * destruct IH as [-> Hnot]. split; [done|].
        intros Hall. apply Forall_cons in Hall as [_ Hall]. auto.
    + split.
      * unfold convert_provider_name in Hname.
        destruct (mapping !! provider); [done|]. by injection Hname as <- _.
      * intros Hall. apply Forall_cons in Hall as [Hcat _].
        destruct Hcat as (p & s & Hk' & Hp' & Hs'). simpl in Hk'.
        pose proof (provider_names_no_underscore _ Hp') as Hp''.
        assert (split_on "_" category = [p; s]) as Hsplit'
          by (apply split_on_two; auto).
        assert (split_on "_" category = [provider; service]) as Hsplit''
          by (apply split_on_two; auto).
        rewrite Hsplit' in Hsplit''. injection Hsplit'' as -> ->.
        apply provider_names_convert in Hp' as [name Hname'].
        congruence.
  - split; [done|]. intros Hall. apply Forall_cons in Hall as [Hk _].
    destruct Hk as (p & s & Hk & Hp & Hs). simpl in Hk.
    apply provider_names_no_underscore in Hp.
    assert (split_on "_" category = [p; s]) as Hsplit'
      by (apply split_on_two; auto).
    congruence.
Qed.

Lemma Forall_filter_impl {A} (P : A → Prop) `{∀ x, Decision (P x)}
    (Q : A → Prop) (l : list A) :
  Forall Q (filter P l) ↔ Forall (fun x => P x → Q x) l.
Proof.
  induction l as [|x l IH]; [by split; constructor|].
  destruct (decide (P x)) as [Hx|Hx].
  - rewrite filter_cons_True by done. rewrite !Forall_cons, IH. tauto.
  - rewrite filter_cons_False by done. rewrite Forall_cons, IH. tauto.
Qed.

(** X15.  Whatever [str.capitalize] does, a chart [create_piechart]
    returns is never empty.  Without a positive value in the data it is the
    No Data chart; otherwise the records its data frame is made from are
    one for each entry with a positive value, in the order of the data:
    the record keeps the value as it is in the data, and its label is the
    name [convert_provider_name] gives for the part of the key before the
    underscore, a space, and what [str.capitalize] gives for the part
    after it. *)
Theorem create_piechart_rows (capitalize : string → string)
    (data : list (string * num)) (ch : chart) :
  create_piechart capitalize data = Ok ch →
  chart_records ch ≠ [] ∧
  (filter (fun kv => positive kv.2 = true) data = [] → ch = no_data_chart) ∧
  (filter (fun kv => positive kv.2 = true) data ≠ [] →
   Forall2 (labels capitalize) (filter (fun kv => positive kv.2 = true) data)
     (chart_records ch)).
Proof.
  unfold create_piechart.
  destruct (filter _ data) as [|kv filtered] eqn:Hfilter.
  { intros [= <-]. by repeat split. }
  pose proof (process_data_run capitalize (kv :: filtered) []) as Hrun.
  destruct (process_data capitalize (kv :: filtered) []) as [rows|c msg];
    [|done].
  intros [= <-]. destruct Hrun as (new & -> & Hnew). simpl in *.
  split; [|by split].
  intros ->. by apply Forall2_nil_inv_r in Hnew.
Qed.

Lemma create_piechart_rows_witness :
  chart_records
    (Chart [("Amazon Web Services Vm", NFloat 1.5)] (Some "blues")
       ["Category"; "Value"] (Some "CO2e Emissions by Service (kg)")) ≠ [] ∧
  (filter (fun kv => positive kv.2 = true)
     [("aws_vm", NFloat 1.5); ("azure_vm", NInt 0); ("gcp_vm", NInt 0)] = [] →
   Chart [("Amazon Web Services Vm", NFloat 1.5)] (Some "blues")
     ["Category"; "Value"] (Some "CO2e Emissions by Service (kg)")
   = no_data_chart) ∧
  (filter (fun kv => positive kv.2 = true)
     [("aws_vm", NFloat 1.5); ("azure_vm", NInt 0); ("gcp_vm", NInt 0)] ≠ [] →
   Forall2 (labels capitalize_ascii)
     (filter (fun kv => positive kv.2 = true)
        [("aws_vm", NFloat 1.5); ("azure_vm", NInt 0); ("gcp_vm", NInt 0)])
     (chart_records
        (Chart [("Amazon Web Services Vm", NFloat 1.5)] (Some "blues")
           ["Category"; "Value"] (Some "CO2e Emissions by Service (kg)")))).
Proof.
  apply (create_piechart_rows capitalize_ascii
           [("aws_vm", NFloat 1.5); ("azure_vm", NInt 0); ("gcp_vm", NInt 0)]).
  reflexivity.
Defined.

(** X16.  Whatever [str.capitalize] does, [create_piechart] returns a
    chart exactly when every entry with a positive value has a key made of
    one of the six provider names, an underscore and a service without
    underscore; otherwise it raises [ValueError].  Entries whose value is
    not positive are never looked at, whatever their key. *)
Theorem create_piechart_succeeds_iff (capitalize : string → string)
    (data : list (string * num)) :
  (Forall (fun kv => positive kv.2 = true → labelled kv.1) data →
   ∃ ch, create_piechart capitalize data = Ok ch) ∧
  (¬ Forall (fun kv => positive kv.2 = true → labelled kv.1) data →
   raises (create_piechart capitalize data) ValueError).
Proof.
  rewrite <- (Forall_filter_impl (fun kv => positive kv.2 = true)
                (fun kv => labelled kv.1)).
  unfold create_piechart.
  destruct (filter _ data) as [|kv filtered] eqn:Hfilter.
  { split; [by eexists|]. intros H. by destruct H. }
  pose proof (process_data_run capitalize (kv :: filtered) []) as Hrun.
  destruct (process_data capitalize (kv :: filtered) []) as [rows|c msg].
  - split; [by eexists|]. intros Hnot. exfalso. apply Hnot.
    destruct Hrun as (new & _ & Hnew).
    clear -Hnew. induction Hnew as [|x y l k Hxy _ IH]; constructor; [|done].
    by eapply labels_labelled.
  - destruct Hrun as [-> Hnot]. split; [by intros ?%Hnot|done].
Qed.

Lemma create_piechart_succeeds_iff_witness :
  (∃ ch,
     create_piechart capitalize_ascii
       [("aws_vm", NFloat 1.5); ("x", NInt 0); ("gcp_store", NInt 2)]
     = Ok ch) ∧
  raises (create_piechart capitalize_ascii [("aws_vm_x", NFloat 1.5)])
    ValueError.
Proof.
  split.
  - apply (proj1 (create_piechart_succeeds_iff capitalize_ascii
                    [("aws_vm", NFloat 1.5); ("x", NInt 0);
                     ("gcp_store", NInt 2)])).
    repeat constructor; simpl; try done; intros _.
    + exists "aws", "vm". repeat split. repeat constructor.
    + exists "gcp", "store". repeat split. repeat constructor.
  - apply (proj2 (create_piechart_succeeds_iff capitalize_ascii
                    [("aws_vm_x", NFloat 1.5)])).
    intros H. apply Forall_cons in H as [H _].
    destruct (H eq_refl) as (p & s & Hk & Hp & Hs). simpl in Hk.
    apply provider_names_no_underscore in Hp.
    assert (split_on "_" "aws_vm_x" = [p; s]) as Hsplit
      by (apply split_on_two; auto).
    discriminate Hsplit.
Defined.

(** The chart of a breakdown with AWS vm alone, and the chart of zeros;
    the services are ASCII strings. *)
Example create_piechart_aws_vm :
  create_piechart capitalize_ascii
    [("aws_vm", NFloat 1.5); ("azure_vm", NInt 0); ("gcp_vm", NInt 0);
     ("aws_store", NInt 0); ("azure_store", NInt 0); ("gcp_store", NInt 0)]
  = Ok (Chart [("Amazon Web Services Vm", NFloat 1.5)] (Some "blues")
          ["Category"; "Value"] (Some "CO2e Emissions by Service (kg)")) ∧
  create_piechart capitalize_ascii [("aws_vm", NInt 0); ("aws_store", NFloat 0)]
  = Ok no_data_chart.
Proof. split; reflexivity. Qed.

(** ** Runs that differ in their past only *)

Lemma send_loop_same url headers body_array results w1 w2 :
  stateless w1 → network w2 = network w1 →
  ∃ response evs,
    send_loop url headers body_array results w1
    = (response, add_events w1 evs) ∧
    send_loop url headers body_array results w2
    = (response, add_events w2 evs).
Proof.
  revert results w1 w2.
  induction body_array as [|body rest IH]; intros results w1 w2 Hs Hn.
  { exists (results_response results), []. by rewrite !add_events_nil. }
  simpl. set (call := HttpCall url headers body 15).
  rewrite Hn, (Hs (trace w2) (trace w1) call).
  destruct (network w1 (trace w1) call) as [f|status payload].
  - destruct (issubclass (failure_class f) ConnectionError).
    + exists (results_response []),
        [HttpPost call (PostRaises f); StError (MsgNetworkFailure f);
         StError MsgVerifyConnection].
      split; f_equal; same_world.
    + exists (results_response []),
        [HttpPost call (PostRaises f);
         StError (MsgUnexpected (failure_class f))].
      split; f_equal; same_world.
  - destruct (raise_for_status status).
    + set (m := if status =? 403 then MsgForbidden else MsgHttpError status).
      destruct (IH results
                  (log (StError m)
                     (log (HttpPost call (PostReturns status payload)) w1))
                  (log (StError m)
                     (log (HttpPost call (PostReturns status payload)) w2))
                  Hs Hn) as (response & evs & -> & ->).
      exists response,
        (HttpPost call (PostReturns status payload) :: StError m :: evs).
      split; f_equal; same_world.
    + destruct payload as [d|].
      * destruct (IH (results ++ [d])
                    (log (HttpPost call (PostReturns status (JsonOk d))) w1)
                    (log (HttpPost call (PostReturns status (JsonOk d))) w2)
                    Hs Hn) as (response & evs & -> & ->).
        exists response,
          (HttpPost call (PostReturns status (JsonOk d)) :: evs).
        split; f_equal; same_world.
      * exists (results_response []),
          [HttpPost call (PostReturns status JsonFails);
           StError (MsgUnexpected RequestsJSONDecodeError)].
        split; f_equal; same_world.
Qed.

Lemma send_batch_request_same provider body_array endpoint w1 w2 :
  provider ∈ provider_ids →
  stateless w1 → environ w2 = environ w1 → network w2 = network w1 →
  ∃ response evs,
    send_batch_request provider body_array endpoint w1
    = (Ok response, add_events w1 evs) ∧
    send_batch_request provider body_array endpoint w2
    = (Ok response, add_events w2 evs).
Proof.
  intros Hprovider Hs Henv Hn. unfold send_batch_request.
  rewrite (valid_provider_test _ Hprovider), Henv.
  destruct (environ w1 !! "API_KEY") as [[|a s]|].
  - exists (results_response []), [EnvGet "API_KEY"; StError MsgApiKeyNotSet].
    unfold bind, emit, ret. split; f_equal; same_world.
  - destruct (send_loop_same (endpoint_url provider endpoint)
                {[ "Authorization" := "Bearer " +:+ String a s ]} body_array
                [] (log (EnvGet "API_KEY") w1) (log (EnvGet "API_KEY") w2)
                Hs Hn) as (response & evs & -> & ->).
    exists response, (EnvGet "API_KEY" :: evs).
    split; f_equal; same_world.
  - exists (results_response []), [EnvGet "API_KEY"; StError MsgApiKeyNotSet].
    unfold bind, emit, ret. split; f_equal; same_world.
Qed.

Lemma provider_block_same provider label calculation_type endpoint batch
    result_breakdown w1 w2 :
  provider ∈ provider_ids →
  stateless w1 → environ w2 = environ w1 → network w2 = network w1 →
  ∃ r evs,
    provider_block provider label calculation_type endpoint batch
      result_breakdown w1 = (r, add_events w1 evs) ∧
    provider_block provider label calculation_type endpoint batch
      result_breakdown w2 = (r, add_events w2 evs).
Proof.
  intros Hprovider Hs Henv Hn. unfold provider_block.
  case_bool_decide.
  - set (spinner := StSpinner _).
    destruct (send_batch_request_same provider batch endpoint
                (log spinner w1) (log spinner w2) Hprovider Hs Henv Hn)
      as (response & evs & H1 & H2).
    unfold bind, emit, ret, pure. rewrite H1, H2.
    destruct (format_batch_response response calculation_type)
      as [total|c msg];
      eexists _, (spinner :: evs); split; f_equal; same_world.
  - exists (Ok result_breakdown), []. by rewrite !add_events_nil.
Qed.

Lemma calculate_same calculation_type w1 w2 :
  stateless w1 →
  environ w2 = environ w1 → session_state w2 = session_state w1 →
  network w2 = network w1 →
  ∃ r evs,
    calculate calculation_type w1 = (r, add_events w1 evs) ∧
    calculate calculation_type w2 = (r, add_events w2 evs).
Proof.
  intros Hs Henv Hsession Hn.
  rewrite !calculate_blocks. unfold batch_of. rewrite Hsession.
  unfold bind.
  destruct (provider_block_same "aws" "AWS" calculation_type
              (endpoint_of calculation_type)
              (default [] (session_state w1
                             !! batch_key "aws" calculation_type))
              (zero_breakdown calculation_type) w1 w2)
    as ([m1|c msg] & e1 & -> & ->); [repeat constructor|done..| |by eauto].
  destruct (provider_block_same "azure" "Azure" calculation_type
              (endpoint_of calculation_type)
              (default [] (session_state w1
                             !! batch_key "azure" calculation_type))
              m1 (add_events w1 e1) (add_events w2 e1))
    as ([m2|c msg] & e2 & -> & ->); [repeat constructor|done..| |].
  2: { exists (Raise c msg), (e1 ++ e2). by rewrite !add_events_app. }
  destruct (provider_block_same "gcp" "GCP" calculation_type
              (endpoint_of calculation_type)
              (default [] (session_state w1
                             !! batch_key "gcp" calculation_type))
              m2 (add_events (add_events w1 e1) e2)
              (add_events (add_events w2 e1) e2))
    as (r & e3 & -> & ->); [repeat constructor|done..|].
  exists r, (e1 ++ e2 ++ e3). unfold ret.
  destruct r; by rewrite !add_events_app.
Qed.

(** X5.  When the remote side answers a call the same way whatever
    happened before, what [calculate] returns or raises, and what it does,
    depends on the world only through the environment, the session and the
    network, not through the trace: in two worlds that differ in their
    past only it ends the same way, with the same breakdown or the same
    exception, after the same events.  In particular a second [calculate]
    right after the first ends as the first did. *)
Theorem calculate_repeatable calculation_type w1 w2 :
  stateless w1 →
  environ w2 = environ w1 → session_state w2 = session_state w1 →
  network w2 = network w1 →
  ∃ r evs,
    calculate calculation_type w1 = (r, add_events w1 evs) ∧
    calculate calculation_type w2 = (r, add_events w2 evs) ∧
    calculate calculation_type (add_events w1 evs)
    = (r, add_events (add_events w1 evs) evs).
Proof.
  intros Hs Henv Hsession Hn.
  destruct (calculate_same calculation_type w1 w2 Hs Henv Hsession Hn)
    as (r & evs & H1 & H2).
  exists r, evs. split; [done|]. split; [done|].
  destruct (calculate_same calculation_type w1 (add_events w1 evs) Hs
              eq_refl eq_refl eq_refl) as (r' & evs' & H1' & H2').
  rewrite H1 in H1'. injection H1' as <- Hevs.
  apply app_inv_head in Hevs. by subst evs'.
Qed.

Lemma calculate_repeatable_witness :
  ∃ r evs,
    calculate "vm" steady_world = (r, add_events steady_world evs) ∧
    calculate "vm" (add_events steady_world [EnvGet "HOME"])
    = (r, add_events (add_events steady_world [EnvGet "HOME"]) evs) ∧
    calculate "vm" (add_events steady_world evs)
    = (r, add_events (add_events steady_world evs) evs).
Proof.
  apply (calculate_repeatable "vm" steady_world
           (add_events steady_world [EnvGet "HOME"])); done.
Defined.

(** ** The string operations of the chart labels *)

Example split_on_underscore :
  split_on "_" "aws_vm" = ["aws"; "vm"] ∧
  split_on "_" "aws_vm_batch" = ["aws"; "vm"; "batch"] ∧
  split_on "_" "a__b" = ["a"; ""; "b"] ∧
  split_on "_" "" = [""].
Proof. repeat split; reflexivity. Qed.

Example capitalize_services :
  capitalize_ascii "vm" = "Vm" ∧ capitalize_ascii "store" = "Store" ∧
  capitalize_ascii "sTORE 2" = "Store 2" ∧ capitalize_ascii "" = "".
Proof. repeat split; reflexivity. Qed.
